(** * deploy.py of cwv_in_ga4: the deployment script, embedded and verified

    The script resolves a project, a region and a GA property, optionally
    lists the Compute regions, deletes the BigQuery scheduled queries named
    "Update Web Vitals Summary" and creates a new one.

    Everything the script talks to (ambient credentials, the process
    environment, standard input and output, the Compute regions endpoint,
    the BigQuery Data Transfer service) is one explicit [World]; the Python
    functions are computations over it in a state-and-exception monad.  Every
    interaction with the outside is appended to [trace], in program order.

    What the model assumes of the outside:
    - a [str] is its text in UTF-8; [str.strip] and [str.isdigit], which
      follow the Unicode database, are parameters of the script ([strip],
      [isdigit]): what is proved of [main] holds whatever they are.  The
      runs on concrete worlds take [ascii_strip] and [ascii_isdigit], which
      are what Python computes on ASCII text, and type ASCII text only;
    - the Compute endpoint is a script of answers, one per
      [request.execute()], each a page or an HTTP error; building a request
      without the required parameter [project] raises TypeError, as the
      discovery client does;
    - the Data Transfer service holds its configs in a finite map by
      resource name, has one client, answers a list request with a snapshot
      of the matching configs, and fails where a script of faults says so;
    - building the clients ([discovery.build], [DataTransferServiceClient()])
      does nothing observable;
    - [arg_parser.parse_args()] has run: [main] starts from its result. *)

From Stdlib Require Import Ascii.
From stdpp Require Import base option list strings pretty gmap fin_maps stringmap.

(** ** Python strings *)

(** The double quote, by its code. *)
Definition dquote : string := String (ascii_of_nat 34) EmptyString.

(** The line feed of ['\n'.join(...)]. *)
Definition newline : string := String (ascii_of_nat 10) EmptyString.

(** Text of ASCII characters only: every byte is below 128. *)
Fixpoint is_ascii (s : string) : bool :=
  match s with
  | EmptyString => true
  | String c s' => (nat_of_ascii c <? 128) && is_ascii s'
  end.

(** [str.isspace] on an ASCII character: tab, line feed, vertical tab, form
    feed, carriage return, the four separators 0x1c..0x1f and the space.
    (Beyond ASCII, Python also counts U+0085, U+00A0 and the other Unicode
    blanks.) *)
Definition ascii_isspace (c : ascii) : bool :=
  let n := nat_of_ascii c in
  ((9 <=? n) && (n <=? 13)) || ((28 <=? n) && (n <=? 31)) || (n =? 32).

Fixpoint ascii_lstrip (s : string) : string :=
  match s with
  | EmptyString => EmptyString
  | String c s' => if ascii_isspace c then ascii_lstrip s' else s
  end.

Definition ascii_rstrip (s : string) : string :=
  String.rev (ascii_lstrip (String.rev s)).

(** [s.strip()] on ASCII text. *)
Definition ascii_strip (s : string) : string := ascii_rstrip (ascii_lstrip s).

Definition ascii_decimal (c : ascii) : bool :=
  let n := nat_of_ascii c in (48 <=? n) && (n <=? 57).

Fixpoint ascii_decimals (s : string) : bool :=
  match s with
  | EmptyString => true
  | String c s' => ascii_decimal c && ascii_decimals s'
  end.

(** [s.isdigit()] on ASCII text: at least one character, and all of them
    among 0..9.  (Beyond ASCII, Python also accepts the digits of other
    scripts and the superscript digits.) *)
Definition ascii_isdigit (s : string) : bool :=
  match s with
  | EmptyString => false
  | String _ _ => ascii_decimals s
  end.

(** ['\n'.join(l)] for [sep = newline]. *)
Fixpoint join (sep : string) (l : list string) : string :=
  match l with
  | [] => EmptyString
  | [x] => x
  | x :: rest => x +:+ sep +:+ join sep rest
  end.

(** A value that is an [int] or a [str]: [args.ga_property] is an [int] when
    it comes from the command line ([type=int]) and a [str] when it was
    typed at the prompt. *)
Inductive IntOrStr :=
| Int (n : Z)
| Str (s : string).

(** What an f-string puts in place of [{v}]. *)
Definition format_value (v : IntOrStr) : string :=
  match v with
  | Int n => pretty n
  | Str s => s
  end.

(** ** The cloud resources *)

(** google.cloud.bigquery_datatransfer.TransferConfig, the fields the script
    sets or reads. *)
Module TransferConfig.
Record t := mk {
  name : string;
  display_name : string;
  data_source_id : string;
  params : gmap string string;
  schedule : string }.
End TransferConfig.

(** A transfer config as the service holds it, under its resource name: the
    location it was created in and the fields of the message. *)
Record StoredConfig := mkStoredConfig {
  stored_parent : string;
  stored_display_name : string;
  stored_data_source_id : string;
  stored_params : gmap string string;
  stored_schedule : string }.

Definition to_message (n : string) (s : StoredConfig) : TransferConfig.t :=
  TransferConfig.mk n (stored_display_name s) (stored_data_source_id s)
    (stored_params s) (stored_schedule s).

Definition of_message (parent : string) (c : TransferConfig.t) : StoredConfig :=
  mkStoredConfig parent (TransferConfig.display_name c)
    (TransferConfig.data_source_id c) (TransferConfig.params c)
    (TransferConfig.schedule c).

Module ListTransferConfigsRequest.
Record t := mk {
  parent : string;
  data_source_ids : list string }.
End ListTransferConfigsRequest.

Module CreateTransferConfigRequest.
Record t := mk {
  parent : string;
  transfer_config : TransferConfig.t }.
End CreateTransferConfigRequest.

(** One region of the Compute listing: a JSON object, of which the script
    reads the key 'name'. *)
Abbreviation Region := (gmap string string).

(** One page of [regions().list]: the keys 'items' and 'nextPageToken' of the
    response dict, each of which may be absent. *)
Record RegionList := mkRegionList {
  items : option (list Region);
  nextPageToken : option string }.

(** The request [service.regions().list(...)] builds, by the keyword
    arguments it was given. *)
Record RegionsListRequest := mkRegionsListRequest {
  req_project : option string;
  req_pageToken : option string }.

Inductive Credentials := mkCredentials (account : string).

(** ** Exceptions, events and the world *)

Inductive exn :=
| KeyError (key : string)
| EOFError
| SystemExit (message : string)
| TypeError (message : string)
| DefaultCredentialsError
| HttpError
| GoogleAPICallError
| NotFound.

(** What a call ends in: a value, an exception that propagates, or the fuel
    of a [while] loop running out (the model's stand-in for a loop that has
    not ended yet). *)
Inductive outcome (A : Type) :=
| Return (a : A)
| Raise (e : exn)
| OutOfFuel.
Arguments Return {A} a.
Arguments Raise {A} e.
Arguments OutOfFuel {A}.

Inductive event :=
| EvAuthDefault
| EvEnviron (key : string)
| EvInput (prompt : string)
| EvPrint (text : string)
| EvRegionsList (request : RegionsListRequest)
| EvListTransferConfigs (request : ListTransferConfigsRequest.t)
| EvDeleteTransferConfig (name : string)
| EvCreateTransferConfig (request : CreateTransferConfigRequest.t).

(** The calls that go to a cloud API. *)
Definition is_api_call (e : event) : bool :=
  match e with
  | EvRegionsList _ | EvListTransferConfigs _
  | EvDeleteTransferConfig _ | EvCreateTransferConfig _ => true
  | _ => false
  end.

(** The calls that go to the Data Transfer service. *)
Definition is_transfer_call (e : event) : bool :=
  match e with
  | EvListTransferConfigs _ | EvDeleteTransferConfig _
  | EvCreateTransferConfig _ => true
  | _ => false
  end.

Definition is_prompt (e : event) : bool :=
  match e with
  | EvInput _ => true
  | _ => false
  end.

Definition is_environ (e : event) : bool :=
  match e with
  | EvEnviron _ => true
  | _ => false
  end.

Record World := mkWorld {
  (** what [google.auth.default()] finds: nothing, or credentials and the
      project id they resolve, if any *)
  ambient : option (Credentials * option string);
  (** [os.environ] *)
  environ : gmap string string;
  (** the lines still to be read from standard input *)
  stdin : list string;
  (** the Compute endpoint as a script: what each next [request.execute()]
      answers, a page or (None) an HTTP error *)
  compute_pages : list (option RegionList);
  (** the transfer configs the Data Transfer service holds, by resource name *)
  transfer_configs : gmap string StoredConfig;
  (** the Data Transfer service's faults as a script: whether each next call
      fails ([true]) before doing anything; past its end, calls go through *)
  transfer_faults : list bool;
  (** every interaction so far, oldest first *)
  trace : list event }.

Definition set_stdin (l : list string) (w : World) : World :=
  mkWorld (ambient w) (environ w) l (compute_pages w) (transfer_configs w)
    (transfer_faults w) (trace w).

Definition set_compute_pages (l : list (option RegionList)) (w : World) : World :=
  mkWorld (ambient w) (environ w) (stdin w) l (transfer_configs w)
    (transfer_faults w) (trace w).

Definition set_transfer_configs (m : gmap string StoredConfig) (w : World) : World :=
  mkWorld (ambient w) (environ w) (stdin w) (compute_pages w) m
    (transfer_faults w) (trace w).

Definition set_transfer_faults (l : list bool) (w : World) : World :=
  mkWorld (ambient w) (environ w) (stdin w) (compute_pages w)
    (transfer_configs w) l (trace w).

Definition set_trace (l : list event) (w : World) : World :=
  mkWorld (ambient w) (environ w) (stdin w) (compute_pages w)
    (transfer_configs w) (transfer_faults w) l.

(** ** The monad *)

Definition M (A : Type) : Type := World → outcome A * World.

Definition ret {A} (a : A) : M A := λ w, (Return a, w).

Definition raise {A} (e : exn) : M A := λ w, (Raise e, w).

Definition out_of_fuel {A} : M A := λ w, (OutOfFuel, w).

Definition bind {A B} (m : M A) (k : A → M B) : M B :=
  λ w, match m w with
       | (Return a, w') => k a w'
       | (Raise e, w') => (Raise e, w')
       | (OutOfFuel, w') => (OutOfFuel, w')
       end.

Declare Scope py_scope.
Delimit Scope py_scope with py.
Notation "x <- m ;; k" := (bind m (λ x, k))
  (at level 100, m at next level, right associativity) : py_scope.
Notation "m ;;; k" := (bind m (λ _, k))
  (at level 100, right associativity) : py_scope.
Local Open Scope py_scope.

Definition log (e : event) : M unit :=
  λ w, (Return tt, set_trace (trace w ++ [e]) w).

(** [for x in l: body(x)] *)
Fixpoint for_each {A} (l : list A) (body : A → M unit) : M unit :=
  match l with
  | [] => ret tt
  | x :: rest => body x ;;; for_each rest body
  end.

(** ** The host: credentials, environment, terminal *)

(** [google.auth.default()] *)
Definition google_auth_default : M (Credentials * option string) :=
  log EvAuthDefault ;;;
  λ w, match ambient w with
       | Some found => (Return found, w)
       | None => (Raise DefaultCredentialsError, w)
       end.

(** [os.environ[key]] *)
Definition os_environ (key : string) : M string :=
  log (EvEnviron key) ;;;
  λ w, match environ w !! key with
       | Some v => (Return v, w)
       | None => (Raise (KeyError key), w)
       end.

(** [input(prompt)] *)
Definition input (prompt : string) : M string :=
  log (EvInput prompt) ;;;
  λ w, match stdin w with
       | line :: rest => (Return line, set_stdin rest w)
       | [] => (Raise EOFError, w)
       end.

(** [print(text)] *)
Definition print (text : string) : M unit := log (EvPrint text).

(** [d[key]] on a key that may be absent. *)
Definition getitem {A} (key : string) (o : option A) : M A :=
  match o with
  | Some v => ret v
  | None => raise (KeyError key)
  end.

(** ** The Compute regions endpoint *)

(** What the discovery client raises when a method is called without one of
    its required parameters: TypeError('Missing required parameter
    "project"'). *)
Definition missing_project : exn :=
  TypeError ("Missing required parameter " +:+ dquote +:+ "project" +:+ dquote).

(** [service.regions().list(project=..., pageToken=...)], each keyword
    argument given or not: the method checks its required parameter
    [project] when the request is built, before anything is sent. *)
Definition regions_list (project pageToken : option string) : M RegionsListRequest :=
  match project with
  | Some _ => ret (mkRegionsListRequest project pageToken)
  | None => raise missing_project
  end.

(** The request that [service.regions().list(project=project_id)] builds. *)
Definition regions_list_project (project : string) : RegionsListRequest :=
  mkRegionsListRequest (Some project) None.

(** [request.execute()]: the next answer of the script. *)
Definition execute (request : RegionsListRequest) : M RegionList :=
  log (EvRegionsList request) ;;;
  λ w, match compute_pages w with
       | Some page :: rest => (Return page, set_compute_pages rest w)
       | None :: rest => (Raise HttpError, set_compute_pages rest w)
       | [] => (Raise HttpError, w)
       end.

(** ** The Data Transfer service *)

(** [transfer_client.common_location_path(project=..., location=...)] *)
Definition common_location_path (project location : string) : string :=
  "projects/" +:+ project +:+ "/locations/" +:+ location.

(** Every call of the client is logged, then fails if the script says so. *)
Definition transfer_call {A} (e : event) (op : M A) : M A :=
  log e ;;;
  λ w, match transfer_faults w with
       | true :: rest => (Raise GoogleAPICallError, set_transfer_faults rest w)
       | false :: rest => op (set_transfer_faults rest w)
       | [] => op w
       end.

(** What a list request selects: the configs of its parent location, of the
    requested data sources when some are requested. *)
Definition listed (request : ListTransferConfigsRequest.t) (s : StoredConfig) : Prop :=
  stored_parent s = ListTransferConfigsRequest.parent request ∧
  (ListTransferConfigsRequest.data_source_ids request = [] ∨
   stored_data_source_id s ∈ ListTransferConfigsRequest.data_source_ids request).

#[global] Instance listed_dec request s : Decision (listed request s).
Proof. unfold listed. apply _. Defined.

(** [transfer_client.list_transfer_configs(request=...)], all pages. *)
Definition list_transfer_configs (request : ListTransferConfigsRequest.t)
  : M (list TransferConfig.t) :=
  transfer_call (EvListTransferConfigs request)
    (λ w, (Return ((λ kv : string * StoredConfig, to_message kv.1 kv.2) <$>
                   map_to_list (filter (λ kv : string * StoredConfig, listed request kv.2)
                                  (transfer_configs w))), w)).

(** [transfer_client.delete_transfer_config(name=...)] *)
Definition delete_transfer_config (name : string) : M unit :=
  transfer_call (EvDeleteTransferConfig name)
    (λ w, match transfer_configs w !! name with
          | Some _ => (Return tt, set_transfer_configs (delete name (transfer_configs w)) w)
          | None => (Raise NotFound, w)
          end).

(** [transfer_client.create_transfer_config(request)]: the service stores the
    config under a resource name no config has, and answers it. *)
Definition create_transfer_config (request : CreateTransferConfigRequest.t)
  : M TransferConfig.t :=
  transfer_call (EvCreateTransferConfig request)
    (λ w, let parent := CreateTransferConfigRequest.parent request in
          let n := fresh_string (parent +:+ "/transferConfigs/") (transfer_configs w) in
          let s := of_message parent (CreateTransferConfigRequest.transfer_config request) in
          (Return (to_message n s),
           set_transfer_configs (<[n := s]> (transfer_configs w)) w)).

(** ** deploy.py *)

(** The body of [for region in response['items']]. *)
Definition append_region_name (regions : list string) (region : Region) : list string :=
  match region !! "name" with
  | Some n => if decide (n ≠ "") then regions ++ [n] else regions
  | None => regions
  end.

(** Lines 45-49: the request for the next turn.  Line 47 passes the token
    and no project. *)
Definition next_request (response : RegionList) : M (option RegionsListRequest) :=
  match nextPageToken response with
  | Some token =>
    request <- regions_list None (Some token) ;;
    ret (Some request)
  | None => ret None
  end.

(** [while request is not None: ...], one unit of fuel per turn. *)
Fixpoint get_gcp_regions_loop (fuel : nat) (request : option RegionsListRequest)
    (regions : list string) : M (list string) :=
  match request with
  | None => ret regions
  | Some req =>
    match fuel with
    | 0 => out_of_fuel
    | S fuel' =>
      response <- execute req ;;
      response_items <- getitem "items" (items response) ;;
      let regions := foldl append_region_name regions response_items in
      request <- next_request response ;;
      get_gcp_regions_loop fuel' request regions
    end
  end.

Definition get_gcp_regions (fuel : nat) (credentials : Credentials)
    (project_id : string) : M (list string) :=
  request <- regions_list (Some project_id) None ;;
  get_gcp_regions_loop fuel (Some request) [].

Definition delete_scheduled_query (display_name project_id region : string) : M unit :=
  let parent := common_location_path project_id region in
  let transfer_config_req :=
    ListTransferConfigsRequest.mk parent ["scheduled_query"] in
  configs <- list_transfer_configs transfer_config_req ;;
  for_each configs (λ config,
    if decide (TransferConfig.display_name config = display_name)
    then delete_transfer_config (TransferConfig.name config)
    else ret tt).

(** The three literal parts of the f-string [materialize_query], between its
    two occurrences of [{project_id}.analytics_{ga_property}]. *)
Definition sql_header : string :=
  "
-- Copyright 2021 Google LLC
-- Licensed under the Apache License, Version 2.0 (the " +:+ dquote +:+ "License" +:+ dquote +:+ ");
-- you may not use this file except in compliance with the License.
-- You may obtain a copy of the License at

--     https://www.apache.org/licenses/LICENSE-2.0

-- Unless required by applicable law or agreed to in writing, software
-- distributed under the License is distributed on an " +:+ dquote +:+ "AS IS" +:+ dquote +:+ " BASIS,
-- WITHOUT WARRANTIES OR CONDITIONS OF ANY KIND, either express or implied.
-- See the License for the specific language governing permissions and
-- limitations under the License.

-- Materialize Web Vitals metrics from GA4 event export data

CREATE OR REPLACE TABLE `".

Definition sql_select : string :=
  ".web_vitals_summary`
  PARTITION BY DATE(event_timestamp)
  CLUSTER BY metric_name
AS
SELECT
  ga_session_id,
  IF(
    EXISTS(
      SELECT 1
      FROM UNNEST(events) AS e
      WHERE e.event_name = 'first_visit'
    ),
    'New user',
    'Returning user') AS user_type,
  IF(
    (SELECT MAX(session_engaged) FROM UNNEST(events)) > 0, 'Engaged', 'Not engaged')
    AS session_engagement,
  evt.* EXCEPT (session_engaged, event_name),
  event_name AS metric_name,
  FORMAT_TIMESTAMP('%Y%m%d', event_timestamp) AS event_date
FROM
  (
    SELECT
      ga_session_id,
      ARRAY_AGG(custom_event) AS events
    FROM
      (
        SELECT
          ga_session_id,
          STRUCT(
            country,
            device_category,
            device_os,
            traffic_medium,
            traffic_name,
            traffic_source,
            page_path,
            debug_target,
            event_timestamp,
            event_name,
            metric_id,
            IF(event_name = 'LCP', metric_value / 1000, metric_value)
              AS metric_value,
            user_pseudo_id,
            session_engaged,
            session_revenue) AS custom_event
        FROM
          (
            SELECT
              (SELECT value.int_value FROM UNNEST(event_params) WHERE key = 'ga_session_id')
                AS ga_session_id,
              (SELECT value.string_value FROM UNNEST(event_params) WHERE key = 'metric_id')
                AS metric_id,
              ANY_VALUE(device.category) AS device_category,
              ANY_VALUE(device.operating_system) AS device_os,
              ANY_VALUE(traffic_source.medium) AS traffic_medium,
              ANY_VALUE(traffic_source.name) AS traffic_name,
              ANY_VALUE(traffic_source.source) AS traffic_source,
              ANY_VALUE(
                REGEXP_SUBSTR(
                  (SELECT value.string_value FROM UNNEST(event_params) WHERE key = 'page_location'),
                  r'^[^?]+')) AS page_path,
              ANY_VALUE(
                (SELECT value.string_value FROM UNNEST(event_params) WHERE key = 'debug_target'))
                AS debug_target,
              ANY_VALUE(user_pseudo_id) AS user_pseudo_id,
              ANY_VALUE(geo.country) AS country,
              ANY_VALUE(event_name) AS event_name,
              SUM(ecommerce.purchase_revenue) AS session_revenue,
              MAX(
                (
                  SELECT
                    COALESCE(
                      value.double_value,
                      value.int_value,
                      CAST(value.string_value AS NUMERIC))
                  FROM UNNEST(event_params)
                  WHERE key = 'session_engaged'
                )) AS session_engaged,
              TIMESTAMP_MICROS(MAX(event_timestamp)) AS event_timestamp,
              MAX(
                (
                  SELECT COALESCE(value.double_value, value.int_value)
                  FROM UNNEST(event_params)
                  WHERE key = 'metric_value'
                )) AS metric_value,
            FROM
              # Replace source table name
              `".

Definition sql_footer : string :=
  ".events_*`
            WHERE
              event_name IN ('LCP', 'FID', 'CLS', 'first_visit', 'purchase')
            GROUP BY
              1, 2
          )
      )
    WHERE
      ga_session_id IS NOT NULL
    GROUP BY ga_session_id
  )
CROSS JOIN UNNEST(events) AS evt
WHERE evt.event_name NOT IN ('first_visit', 'purchase');
  ".

Definition materialize_query (project_id : string) (ga_property : IntOrStr) : string :=
  sql_header +:+ project_id +:+ ".analytics_" +:+ format_value ga_property +:+
  sql_select +:+ project_id +:+ ".analytics_" +:+ format_value ga_property +:+
  sql_footer.

Definition deploy_scheduled_materialize_query (project_id region : string)
    (ga_property : IntOrStr) : M unit :=
  let display_name := "Update Web Vitals Summary" in
  let materialize_query := materialize_query project_id ga_property in
  delete_scheduled_query display_name project_id region ;;;
  let parent := common_location_path project_id region in
  let transfer_config :=
    TransferConfig.mk "" display_name "scheduled_query"
      {[ "query" := materialize_query ]} "every 24 hours" in
  transfer_config <- create_transfer_config
    (CreateTransferConfigRequest.mk parent transfer_config) ;;
  ret tt.

Definition deploy_p75_procedure : M unit := ret tt.

Definition deploy_cloudrun_alerter : M unit := ret tt.

Definition create_cloudrun_trigger : M unit := ret tt.

(** [args], what [arg_parser.parse_args()] returned, for the options [main]
    reads (the three thresholds are parsed and never read). *)
Module Namespace.
Record t := mk {
  ga_property : option Z;
  region : option string;
  email_server : option string;
  email_user : option string;
  email_password : option string;
  alert_recipients : option string }.
End Namespace.

(** The value of an option when [not v] is false: neither [None] nor ''. *)
Definition truthy_str (v : option string) : option string :=
  match v with
  | Some s => if decide (s = "") then None else Some s
  | None => None
  end.

(** The same for an [int] option: neither [None] nor 0. *)
Definition truthy_int (v : option Z) : option Z :=
  match v with
  | Some n => if decide (n = 0%Z) then None else Some n
  | None => None
  end.

(** Lines 286-288: the credentials and the project id. *)
Definition main_project_id : M (Credentials * string) :=
  found <- google_auth_default ;;
  let credentials := found.1 in
  let project_id := found.2 in
  match truthy_str project_id with
  | Some project_id => ret (credentials, project_id)
  | None =>
    project_id <- os_environ "GOOGLE_CLOUD_PROJECT" ;;
    ret (credentials, project_id)
  end.

(** ** The script, for any [str.strip] and [str.isdigit] *)

Section script.

(** [s.strip()] and [s.isdigit()] of the Python the script runs on. *)
Variable strip : string → string.
Variable isdigit : string → bool.

(** Lines 293-298: [while args.region == 'list']. *)
Fixpoint main_region_loop (fuel : nat) (credentials : Credentials)
    (project_id region : string) : M string :=
  if decide (region = "list") then
    match fuel with
    | 0 => out_of_fuel
    | S fuel' =>
      region_list <- get_gcp_regions fuel credentials project_id ;;
      print (join newline region_list) ;;;
      answer <- input "Which region is the GA export in (list for a list of regions)? " ;;
      main_region_loop fuel' credentials project_id (strip answer)
    end
  else ret region.

(** Lines 290-298: the region. *)
Definition main_region (fuel : nat) (credentials : Credentials)
    (project_id : string) (args : Namespace.t) : M string :=
  match truthy_str (Namespace.region args) with
  | Some region => ret region
  | None =>
    answer <- input "Which region should be deployed to (type list for a list)? " ;;
    main_region_loop fuel credentials project_id (strip answer)
  end.

(** Lines 299-304: the GA property. *)
Definition main_ga_property (args : Namespace.t) : M IntOrStr :=
  match truthy_int (Namespace.ga_property args) with
  | Some ga_property => ret (Int ga_property)
  | None =>
    answer <- input "Please enter the GA property ID you are collecting CWV data with: " ;;
    let ga_property := strip answer in
    if isdigit ga_property then ret (Str ga_property)
    else raise (SystemExit "Only GA4 properties are supported at this time.")
  end.

(** [if not v: v = input(prompt).strip()] *)
Definition input_if_not (v : option string) (prompt : string) : M string :=
  match truthy_str v with
  | Some s => ret s
  | None => answer <- input prompt ;; ret (strip answer)
  end.

(** Lines 306-321: the four settings of the alerter. *)
Definition main_email (args : Namespace.t) : M unit :=
  email_server <- input_if_not (Namespace.email_server args)
    "Please enter the address of the email server to use to send alerts: " ;;
  email_user <- input_if_not (Namespace.email_user args)
    "Please enter the username for authenticating with the email server: " ;;
  email_password <- input_if_not (Namespace.email_password args)
    "Please enter the password for authenticating with the email server: " ;;
  alert_recipients <- input_if_not (Namespace.alert_recipients args)
    "Please enter a comma-separated list of email addresses to send the alerts to: " ;;
  ret tt.

(** Lines 290-326: what [main] does once it has a project id. *)
Definition main_steps (fuel : nat) (credentials : Credentials)
    (project_id : string) (args : Namespace.t) : M unit :=
  region <- main_region fuel credentials project_id args ;;
  ga_property <- main_ga_property args ;;
  main_email args ;;;
  deploy_scheduled_materialize_query project_id region ga_property ;;;
  deploy_p75_procedure ;;;
  deploy_cloudrun_alerter ;;;
  create_cloudrun_trigger.

(** [main], from line 286 on; [args] is what line 284 parsed. *)
Definition main (fuel : nat) (args : Namespace.t) : M unit :=
  found <- main_project_id ;;
  main_steps fuel found.1 found.2 args.

(** * The vocabulary of the specification *)

(** A relation between the world before and after that every step of a
    computation respects is respected by the whole computation. *)
Definition steps (R : relation World) {A} (m : M A) : Prop :=
  ∀ w, R w (m w).2.

(** The trace only grows, by events that satisfy [P]. *)
Definition emits (P : event → Prop) : relation World :=
  λ w w', ∃ evs, trace w' = trace w ++ evs ∧ Forall P evs.

(** Nothing is put back: standard input and the script of the Compute
    endpoint only get shorter. *)
Definition consumes : relation World :=
  λ w w', length (stdin w') ≤ length (stdin w) ∧
          length (compute_pages w') ≤ length (compute_pages w).

(** A computation that never runs out of fuel. *)
Definition ends {A} (m : M A) : Prop :=
  ∀ w, (m w).1 ≠ OutOfFuel.

(** A part of the world stays as it is. *)
Definition keeps {X} (field : World → X) : relation World :=
  λ w w', field w' = field w.

(** The scheduled queries of a location that carry a display name: what
    [delete_scheduled_query] is after. *)
Definition scheduled_query_named (display_name parent : string) (s : StoredConfig) : Prop :=
  stored_parent s = parent ∧
  stored_data_source_id s = "scheduled_query" ∧
  stored_display_name s = display_name.

#[global] Instance scheduled_query_named_dec display_name parent s :
  Decision (scheduled_query_named display_name parent s).
Proof. unfold scheduled_query_named. apply _. Defined.

(** The configs a list request answers, as messages. *)
Definition listing (request : ListTransferConfigsRequest.t)
    (m : gmap string StoredConfig) : list TransferConfig.t :=
  (λ kv : string * StoredConfig, to_message kv.1 kv.2) <$>
  map_to_list (filter (λ kv : string * StoredConfig, listed request kv.2) m).

(** The names the loop of [delete_scheduled_query] passes to
    [delete_transfer_config], in order. *)
Definition targets (display_name : string) (l : list TransferConfig.t) : list string :=
  TransferConfig.name <$>
  filter (λ c, TransferConfig.display_name c = display_name) l.

Definition delete_all (names : list string) (m : gmap string StoredConfig)
  : gmap string StoredConfig :=
  foldl (λ m k, delete k m) m names.

(** The request [delete_scheduled_query] lists with. *)
Definition scheduled_queries_of (project_id region : string) : ListTransferConfigsRequest.t :=
  ListTransferConfigsRequest.mk (common_location_path project_id region) ["scheduled_query"].

(** A service that is scripted not to fail. *)
Definition no_faults (w : World) : Prop :=
  Forall (λ b : bool, b = false) (transfer_faults w).

#[global] Instance no_faults_dec w : Decision (no_faults w).
Proof. unfold no_faults. apply _. Defined.

(** [sub] occurs in [s]. *)
Definition contains (s sub : string) : Prop :=
  ∃ before after, s = before +:+ sub +:+ after.

(** The create request [deploy_scheduled_materialize_query] builds. *)
Definition materialize_request (project_id region : string) (ga_property : IntOrStr)
  : CreateTransferConfigRequest.t :=
  CreateTransferConfigRequest.mk (common_location_path project_id region)
    (TransferConfig.mk "" "Update Web Vitals Summary" "scheduled_query"
       {[ "query" := materialize_query project_id ga_property ]}
       "every 24 hours").

(** The name an item of a page contributes: the value of its key 'name',
    when it has the key and the value is not ''. *)
Definition region_name (region : Region) : option string :=
  match region !! "name" with
  | Some n => if decide (n = "") then None else Some n
  | None => None
  end.

(** The names a page contributes, in the order of its items. *)
Definition page_names (page : RegionList) : list string :=
  omap region_name (default [] (items page)).

(** A listing: pages that all have 'items', of which the last, and only the
    last, has no 'nextPageToken'. *)
Fixpoint is_listing (pages : list RegionList) : bool :=
  match pages with
  | [] => false
  | page :: rest =>
    bool_decide (is_Some (items page)) &&
    match rest with
    | [] => bool_decide (nextPageToken page = None)
    | _ :: _ => bool_decide (is_Some (nextPageToken page)) && is_listing rest
    end
  end.

(** What [main] may do between resolving the project id and deploying:
    prompt, print, and ask for the regions of the project. *)
Definition asks_or_lists_regions (project_id : string) (e : event) : Prop :=
  match e with
  | EvInput _ | EvPrint _ => True
  | EvRegionsList request => request = regions_list_project project_id
  | _ => False
  end.

(** What [main] may do once it has the project id [project_id]: the above,
    and the calls of the deployment, all for locations of that project. *)
Definition operation_of_project (project_id : string) (e : event) : Prop :=
  match e with
  | EvInput _ | EvPrint _ | EvRegionsList _ => asks_or_lists_regions project_id e
  | EvListTransferConfigs request =>
    ∃ region, request = scheduled_queries_of project_id region
  | EvDeleteTransferConfig _ => True
  | EvCreateTransferConfig request =>
    ∃ region ga_property, request = materialize_request project_id region ga_property
  | EvAuthDefault | EvEnviron _ => False
  end.

Definition example_config (parent display_name data_source_id : string) : StoredConfig :=
  mkStoredConfig parent display_name data_source_id ∅ "every 24 hours".

(** Five configs: two scheduled queries to replace in us/proj, a scheduled
    query of another name, a config of another data source with the same
    name, and a scheduled query of the same name in another location. *)
Definition example_configs : gmap string StoredConfig :=
  <["projects/proj/locations/us/transferConfigs/a" :=
      example_config "projects/proj/locations/us" "Update Web Vitals Summary"
        "scheduled_query"]>
  (<["projects/proj/locations/us/transferConfigs/b" :=
      example_config "projects/proj/locations/us" "Nightly export" "scheduled_query"]>
  (<["projects/proj/locations/us/transferConfigs/c" :=
      example_config "projects/proj/locations/us" "Update Web Vitals Summary"
        "google_ads"]>
  (<["projects/proj/locations/eu/transferConfigs/d" :=
      example_config "projects/proj/locations/eu" "Update Web Vitals Summary"
        "scheduled_query"]>
  (<["projects/proj/locations/us/transferConfigs/e" :=
      example_config "projects/proj/locations/us" "Update Web Vitals Summary"
        "scheduled_query"]> ∅)))).

(** A listing in one page. *)
Definition example_page : RegionList :=
  mkRegionList
    (Some [ {[ "name" := "us-east1" ]}; {[ "name" := "us-west1" ]};
            {[ "name" := "europe-west1" ]}; {[ "name" := "us-east1" ]} ])
    None.

(** A listing in two pages: the first carries the token of the second. *)
Definition example_page_first : RegionList :=
  mkRegionList (Some [ {[ "name" := "us-east1" ]}; {[ "name" := "us-west1" ]} ])
    (Some "page-2").

Definition example_page_second : RegionList :=
  mkRegionList (Some [ {[ "name" := "europe-west1" ]} ]) None.

(** A page with an item whose name is '' and an item without a name. *)
Definition example_page_unnamed : RegionList :=
  mkRegionList
    (Some [ {[ "name" := "us-east1" ]}; {[ "name" := "" ]};
            {[ "description" := "no name" ]} ])
    None.

Definition example_credentials : Credentials := mkCredentials "operator".

(** No project id from the credentials, GOOGLE_CLOUD_PROJECT=proj, an
    operator who asks for the list of regions first and then answers every
    prompt. *)
Definition example_world : World :=
  mkWorld (Some (example_credentials, None))
    {[ "GOOGLE_CLOUD_PROJECT" := "proj" ]}
    ["list"; " us "; " 123 "; "smtp.example.com"; "alerts"; "secret"; "ops@example.com"]
    [Some example_page]
    example_configs [] [].

(** The same world with the listing in two pages. *)
Definition example_world_two_pages : World :=
  set_compute_pages [Some example_page_first; Some example_page_second] example_world.

(** The same operator typing a property id that is not a number. *)
Definition example_world_bad_property : World :=
  set_stdin ["list"; " us "; "GA4-123"] example_world.

(** The same world with a service that fails at its fourth call, and at its
    third. *)
Definition example_world_failing_create : World :=
  set_transfer_faults [false; false; false; true] example_world.

Definition example_world_failing_delete : World :=
  set_transfer_faults [false; false; true] example_world.

(** Credentials that resolve the project id '' and no GOOGLE_CLOUD_PROJECT. *)
Definition example_world_no_project : World :=
  mkWorld (Some (example_credentials, Some "")) ∅ (stdin example_world)
    (compute_pages example_world) example_configs [] [].

(** A Compute endpoint that answers the page with the unnamed items. *)
Definition example_world_unnamed : World :=
  set_compute_pages [Some example_page_unnamed] example_world.

(** An operator who is asked only for the property id and mistypes it. *)
Definition example_world_bad_answer : World :=
  set_stdin ["GA4-123"] example_world.

Definition example_args : Namespace.t := Namespace.mk None None None None None None.

(** The same with the region given on the command line. *)
Definition example_args_region : Namespace.t :=
  Namespace.mk None (Some "us") None None None None.

(** ** More vocabulary: failures, counts, dialogues *)

(** What [get_gcp_regions] raises on an answer of the endpoint, if anything:
    the HTTP error of a failed request, or KeyError('items') on a page
    without the key 'items'. *)
Definition page_error (answer : option RegionList) : option exn :=
  match answer with
  | None => Some HttpError
  | Some page =>
    match items page with
    | None => Some (KeyError "items")
    | Some _ => None
    end
  end.

(** A page without the key 'items', as the API sends an empty page. *)
Definition example_page_empty : RegionList := mkRegionList None None.

Definition example_world_empty_page : World :=
  set_compute_pages [Some example_page_empty; Some example_page] example_world.

(** The errors of the Data Transfer client. *)
Definition transfer_error (e : exn) : Prop :=
  e = GoogleAPICallError ∨ e = NotFound.

(** A computation that raises only exceptions of a kind. *)
Definition raises_only (E : exn → Prop) {A} (m : M A) : Prop :=
  ∀ w e, (m w).1 = Raise e → E e.

(** The trace grows by calls that are not Data Transfer calls, then by Data
    Transfer calls. *)
Definition phased : relation World :=
  λ w w', ∃ pre post,
    trace w' = trace w ++ pre ++ post ∧
    Forall (λ e, is_transfer_call e = false) pre ∧
    Forall (λ e, is_transfer_call e = true) post.

(** An end that is not a return and not an error of the Data Transfer
    client. *)
Definition stopped_early {A} (o : outcome A) : Prop :=
  match o with
  | Return _ => False
  | Raise e => ¬ transfer_error e
  | OutOfFuel => True
  end.

(** The part of [main] before the deployment: no Data Transfer call, no
    change of a config, no error of the Data Transfer client. *)
Definition early {A} (m : M A) : Prop :=
  steps (emits (λ e, is_transfer_call e = false)) m ∧
  steps (keeps transfer_configs) m ∧
  raises_only (λ e, ¬ transfer_error e) m.

(** A computation whose Data Transfer calls come last, and that has made
    none when it stops early. *)
Definition late {A} (m : M A) : Prop :=
  ∀ w, phased w (m w).2 ∧
       (stopped_early (m w).1 →
        transfer_configs (m w).2 = transfer_configs w ∧
        emits (λ e, is_transfer_call e = false) w (m w).2).

(** A computation whose results satisfy [Q] of the world it started in. *)
Definition returns_of {A} (Q : World → A → Prop) (m : M A) : Prop :=
  ∀ w a w', m w = (Return a, w') → Q w a.

(** [s] was typed: it is one of the [lines], stripped. *)
Definition typed (lines : list string) (s : string) : Prop :=
  ∃ line, line ∈ lines ∧ s = strip line.

(** A property id [main] lets through: the [int] of the command line when it
    is not 0, or else a line of standard input, stripped, that passes
    [isdigit]. *)
Definition valid_property (args : Namespace.t) (lines : list string)
    (ga_property : IntOrStr) : Prop :=
  match ga_property with
  | Int n => truthy_int (Namespace.ga_property args) = Some n
  | Str s =>
    truthy_int (Namespace.ga_property args) = None ∧ typed lines s ∧ isdigit s = true
  end.

(** A region [main] goes on with: the one of the command line when it is
    not empty, or else a line of standard input, stripped, that is not
    'list'. *)
Definition valid_region (args : Namespace.t) (lines : list string)
    (region : string) : Prop :=
  truthy_str (Namespace.region args) = Some region ∨
  (truthy_str (Namespace.region args) = None ∧ typed lines region ∧ region ≠ "list").

(** The Data Transfer requests of a run of [main] with [args] and the
    [lines] of standard input: for a location and a property id that [main]
    lets through. *)
Definition deploys_validated (args : Namespace.t) (lines : list string)
    (e : event) : Prop :=
  match e with
  | EvListTransferConfigs request =>
    ∃ project_id region,
      request = scheduled_queries_of project_id region ∧
      valid_region args lines region
  | EvCreateTransferConfig request =>
    ∃ project_id region ga_property,
      request = materialize_request project_id region ga_property ∧
      valid_region args lines region ∧ valid_property args lines ga_property
  | _ => True
  end.

(** A listing [get_gcp_regions] gets through: one page, with 'items' and
    without 'nextPageToken'. *)
Definition is_single_page (page : RegionList) : bool :=
  bool_decide (is_Some (items page)) && bool_decide (nextPageToken page = None).

(** What the loop at the region prompt does for the answers 'list', one
    listing each: it asks for the regions of the project, prints the names
    of the page one per line and prompts again. *)
Fixpoint region_dialogue (project_id : string) (listings : list RegionList)
  : list event :=
  match listings with
  | [] => []
  | page :: more =>
    [ EvRegionsList (regions_list_project project_id);
      EvPrint (join newline (page_names page));
      EvInput "Which region is the GA export in (list for a list of regions)? " ] ++
    region_dialogue project_id more
  end.

(** Every option on the command line, with 'list' as the region. *)
Definition example_args_all : Namespace.t :=
  Namespace.mk (Some 123%Z) (Some "list") (Some "smtp.example.com")
    (Some "alerts") (Some "secret") (Some "ops@example.com").

(** * Verification *)

(** ** Runs of the monad *)

Lemma bind_Return {A B} (m : M A) (k : A → M B) w a w' :
  m w = (Return a, w') → bind m k w = k a w'.
Proof. intros H. unfold bind. by rewrite H. Qed.

Lemma bind_Raise {A B} (m : M A) (k : A → M B) w e w' :
  m w = (Raise e, w') → bind m k w = (Raise e, w').
Proof. intros H. unfold bind. by rewrite H. Qed.

Lemma bind_OutOfFuel {A B} (m : M A) (k : A → M B) w w' :
  m w = (OutOfFuel, w') → bind m k w = (OutOfFuel, w').
Proof. intros H. unfold bind. by rewrite H. Qed.

Section steps.
Context (R : relation World) `{!PreOrder R}.

Lemma steps_ret {A} (a : A) : steps R (ret a).
Proof. intros w. simpl. reflexivity. Qed.

Lemma steps_raise {A} e : steps R (@raise A e).
Proof. intros w. simpl. reflexivity. Qed.

Lemma steps_out_of_fuel {A} : steps R (@out_of_fuel A).
Proof. intros w. simpl. reflexivity. Qed.

Lemma steps_bind {A B} (m : M A) (k : A → M B) :
  steps R m → (∀ a, steps R (k a)) → steps R (bind m k).
Proof.
  intros Hm Hk w. unfold bind. specialize (Hm w).
  destruct (m w) as [[a| e |] w']; simpl in *; try done.
  etrans; [exact Hm | apply Hk].
Qed.

Lemma steps_for_each {A} (l : list A) (body : A → M unit) :
  (∀ x, steps R (body x)) → steps R (for_each l body).
Proof.
  intros Hbody. induction l as [|x l IH]; simpl.
  - apply steps_ret.
  - apply steps_bind; [apply Hbody | intros _; exact IH].
Qed.

Lemma steps_getitem {A} key (o : option A) : steps R (getitem key o).
Proof. destruct o; [apply steps_ret | apply steps_raise]. Qed.
End steps.

#[global] Instance emits_preorder P : PreOrder (emits P).
Proof.
  split.
  - intros w. exists []. by rewrite app_nil_r.
  - intros w1 w2 w3 (evs1 & H1 & HP1) (evs2 & H2 & HP2).
    exists (evs1 ++ evs2). split.
    + by rewrite H2, H1, app_assoc.
    + by apply Forall_app.
Qed.

Lemma emits_impl (P Q : event → Prop) w w' :
  (∀ e, P e → Q e) → emits P w w' → emits Q w w'.
Proof.
  intros HPQ (evs & Htr & HP). exists evs. split; [done|].
  eapply Forall_impl; eauto.
Qed.

#[global] Instance keeps_preorder {X} (field : World → X) : PreOrder (keeps field).
Proof.
  split.
  - by intros w.
  - intros w1 w2 w3 H1 H2. unfold keeps in *. congruence.
Qed.

(** *** The primitives *)

Lemma emits_log P e : P e → steps (emits P) (log e).
Proof. intros HP w. exists [e]. split; [done|]. by constructor. Qed.

Ltac step_primitive :=
  intros ? w; eexists [_]; split;
  [ repeat (case_match; simplify_eq /=); reflexivity
  | by constructor ].

Lemma emits_google_auth_default P :
  P EvAuthDefault → steps (emits P) google_auth_default.
Proof.
  unfold google_auth_default, bind, log. step_primitive.
Qed.

Lemma emits_os_environ P key :
  P (EvEnviron key) → steps (emits P) (os_environ key).
Proof. unfold os_environ, bind, log. step_primitive. Qed.

Lemma emits_input P prompt :
  P (EvInput prompt) → steps (emits P) (input prompt).
Proof. unfold input, bind, log. step_primitive. Qed.

Lemma emits_print P text :
  P (EvPrint text) → steps (emits P) (print text).
Proof. apply emits_log. Qed.

Lemma emits_execute P request :
  P (EvRegionsList request) → steps (emits P) (execute request).
Proof. unfold execute, bind, log. step_primitive. Qed.

Lemma emits_transfer_call {A} P e (op : M A) :
  P e → (∀ w, trace (op w).2 = trace w) → steps (emits P) (transfer_call e op).
Proof.
  intros HP Hop w. exists [e]. split; [|by constructor].
  unfold transfer_call, bind, log. simpl.
  destruct (transfer_faults w) as [|[] rest]; simpl; by rewrite ?Hop.
Qed.

Lemma emits_list_transfer_configs P request :
  P (EvListTransferConfigs request) → steps (emits P) (list_transfer_configs request).
Proof. intros HP. by apply emits_transfer_call. Qed.

Lemma emits_delete_transfer_config P name :
  P (EvDeleteTransferConfig name) → steps (emits P) (delete_transfer_config name).
Proof.
  intros HP. apply emits_transfer_call; [done|].
  intros w. by destruct (transfer_configs w !! name).
Qed.

Lemma emits_create_transfer_config P request :
  P (EvCreateTransferConfig request) → steps (emits P) (create_transfer_config request).
Proof. intros HP. by apply emits_transfer_call. Qed.

(** ** The Data Transfer calls, run by run *)

Lemma lookup_delete_all names (m : gmap string StoredConfig) k :
  delete_all names m !! k = if decide (k ∈ names) then None else m !! k.
Proof.
  unfold delete_all. revert m. induction names as [|n names IH]; intros m; cbn [foldl].
  - case_decide as Hin; [by apply elem_of_nil in Hin | done].
  - rewrite IH.
    destruct (decide (k = n)) as [->|Hne].
    + rewrite lookup_delete_eq.
      destruct (decide (n ∈ n :: names)) as [_|Hn]; [by case_decide|].
      exfalso. apply Hn. left.
    + rewrite lookup_delete_ne by done.
      destruct (decide (k ∈ names)) as [Hin|Hin].
      * rewrite decide_True by (by right). done.
      * rewrite decide_False; [done|].
        intros [?|?]%elem_of_cons; done.
Qed.

Lemma list_transfer_configs_run request w :
  let w1 := set_trace (trace w ++ [EvListTransferConfigs request]) w in
  list_transfer_configs request w =
    match transfer_faults w with
    | true :: rest => (Raise GoogleAPICallError, set_transfer_faults rest w1)
    | false :: rest =>
      (Return (listing request (transfer_configs w)), set_transfer_faults rest w1)
    | [] => (Return (listing request (transfer_configs w)), w1)
    end.
Proof.
  unfold list_transfer_configs, transfer_call, bind, log. simpl.
  by destruct (transfer_faults w) as [|[] rest].
Qed.

Lemma delete_transfer_config_run name w :
  let r := delete_transfer_config name w in
  trace r.2 = trace w ++ [EvDeleteTransferConfig name] ∧
  ((r.1 = Return tt ∧
    transfer_configs r.2 = delete name (transfer_configs w)) ∨
   (∃ e, r.1 = Raise e ∧ transfer_configs r.2 = transfer_configs w)).
Proof.
  unfold delete_transfer_config, transfer_call, bind, log. simpl.
  destruct (transfer_faults w) as [|[] rest]; simpl;
    try destruct (transfer_configs w !! name); simpl; eauto 6.
Qed.

Lemma create_transfer_config_run request w :
  let parent := CreateTransferConfigRequest.parent request in
  let s := of_message parent (CreateTransferConfigRequest.transfer_config request) in
  let n := fresh_string (parent +:+ "/transferConfigs/") (transfer_configs w) in
  let r := create_transfer_config request w in
  trace r.2 = trace w ++ [EvCreateTransferConfig request] ∧
  ((r.1 = Return (to_message n s) ∧
    transfer_configs r.2 = <[n := s]> (transfer_configs w)) ∨
   (r.1 = Raise GoogleAPICallError ∧ transfer_configs r.2 = transfer_configs w)).
Proof.
  unfold create_transfer_config, transfer_call, bind, log. simpl.
  destruct (transfer_faults w) as [|[] rest]; simpl; eauto.
Qed.

(** The loop of [delete_scheduled_query] from any world: the calls it makes
    are the targets in order, up to the first that fails; the configs it
    removes are among those it called for; when it returns, it has called
    for and removed every target. *)
Lemma delete_loop_run display_name l w :
  let r := for_each l (λ config,
             if decide (TransferConfig.display_name config = display_name)
             then delete_transfer_config (TransferConfig.name config)
             else ret tt) w in
  ∃ called deleted,
    trace r.2 = trace w ++ (EvDeleteTransferConfig <$> called) ∧
    transfer_configs r.2 = delete_all deleted (transfer_configs w) ∧
    called `prefix_of` targets display_name l ∧
    deleted ⊆ called ∧
    ((r.1 = Return tt ∧ called = targets display_name l ∧ deleted = called) ∨
     (∃ e, r.1 = Raise e)).
Proof.
  revert w. induction l as [|c l IH]; intros w; simpl.
  - exists [], []. simpl. rewrite app_nil_r. split_and!; [done..|by left].
  - unfold targets. destruct (decide (TransferConfig.display_name c = display_name)) as [Heq|Hne].
    + rewrite filter_cons_True by done. simpl.
      destruct (delete_transfer_config_run (TransferConfig.name c) w) as (Htr & Hcase).
      unfold bind.
      destruct (delete_transfer_config (TransferConfig.name c) w) as [[[]|e|] w1] eqn:Hrun;
        simpl in *.
      * destruct Hcase as [(_ & Hst)|(e & ? & _)]; [|done].
        destruct (IH w1) as (called & deleted & Htr' & Hst' & Hpre & Hsub & Hres).
        exists (TransferConfig.name c :: called), (TransferConfig.name c :: deleted).
        split_and!.
        -- rewrite Htr', Htr. simpl. by rewrite <-app_assoc.
        -- rewrite Hst', Hst. done.
        -- by apply prefix_cons.
        -- by apply list_subseteq_skip.
        -- destruct Hres as [(? & -> & ->)|?]; [left|right]; done.
      * destruct Hcase as [(? & _)|(? & _ & Hst)]; [done|].
        exists [TransferConfig.name c], [].
        split_and!;
          [done | by rewrite Hst | by apply prefix_cons, prefix_nil
          | by apply list_subseteq_nil | right; eauto].
      * destruct Hcase as [(? & _)|(? & ? & _)]; done.
    + rewrite filter_cons_False by done.
      apply (IH w).
Qed.

(** ** delete_scheduled_query *)

Lemma listed_scheduled_queries project_id region s :
  listed (scheduled_queries_of project_id region) s ↔
  stored_parent s = common_location_path project_id region ∧
  stored_data_source_id s = "scheduled_query".
Proof.
  unfold listed, scheduled_queries_of. simpl. split.
  - intros [-> [?|Hin]]; [done|]. by apply list_elem_of_singleton in Hin.
  - intros [-> ->]. split; [done|]. right. by apply list_elem_of_singleton.
Qed.

Lemma elem_of_targets_listing display_name request m k :
  k ∈ targets display_name (listing request m) ↔
  ∃ s, m !! k = Some s ∧ listed request s ∧ stored_display_name s = display_name.
Proof.
  unfold targets, listing. rewrite list_elem_of_fmap. split.
  - intros (c & -> & Hc). apply list_elem_of_filter in Hc as [Hdn Hc].
    apply list_elem_of_fmap in Hc as ([k s] & -> & Hks).
    apply elem_of_map_to_list, map_lookup_filter_Some in Hks as [Hk Hl].
    simpl in *. eauto.
  - intros (s & Hk & Hl & Hdn). exists (to_message k s). split; [done|].
    apply list_elem_of_filter. split; [done|].
    apply list_elem_of_fmap. exists (k, s). split; [done|].
    by apply elem_of_map_to_list, map_lookup_filter_Some.
Qed.

(** The names [delete_scheduled_query] calls [delete_transfer_config] on
    are distinct. *)
Lemma NoDup_targets_listing display_name request m :
  NoDup (targets display_name (listing request m)).
Proof.
  unfold targets, listing.
  assert (Hnames : ∀ l : list (string * StoredConfig),
    TransferConfig.name <$>
      filter (λ c, TransferConfig.display_name c = display_name)
        ((λ kv : string * StoredConfig, to_message kv.1 kv.2) <$> l)
    = (filter (λ kv : string * StoredConfig, stored_display_name kv.2 = display_name) l).*1).
  { induction l as [|[k s] l IH]; [done|]. simpl.
    rewrite !filter_cons. simpl.
    case_decide; simpl; [f_equal|]; apply IH. }
  rewrite Hnames.
  eapply NoDup_fmap_fst.
  - intros k s1 s2 H1 H2.
    apply list_elem_of_filter in H1 as [_ H1], H2 as [_ H2].
    apply elem_of_map_to_list in H1, H2. congruence.
  - apply NoDup_filter, NoDup_map_to_list.
Qed.

Lemma delete_scheduled_query_unfold display_name project_id region w :
  let request := scheduled_queries_of project_id region in
  let w1 := set_trace (trace w ++ [EvListTransferConfigs request]) w in
  let loop :=
    for_each (listing request (transfer_configs w)) (λ config,
      if decide (TransferConfig.display_name config = display_name)
      then delete_transfer_config (TransferConfig.name config)
      else ret tt) in
  delete_scheduled_query display_name project_id region w =
    match transfer_faults w with
    | true :: rest => (Raise GoogleAPICallError, set_transfer_faults rest w1)
    | false :: rest => loop (set_transfer_faults rest w1)
    | [] => loop w1
    end.
Proof.
  unfold delete_scheduled_query, bind.
  fold (scheduled_queries_of project_id region).
  rewrite list_transfer_configs_run.
  by destruct (transfer_faults w) as [|[] rest].
Qed.

Lemma delete_scheduled_query_run display_name project_id region w :
  let request := scheduled_queries_of project_id region in
  let found := listing request (transfer_configs w) in
  let r := delete_scheduled_query display_name project_id region w in
  ∃ called deleted,
    trace r.2 = trace w ++ EvListTransferConfigs request ::
                  (EvDeleteTransferConfig <$> called) ∧
    transfer_configs r.2 = delete_all deleted (transfer_configs w) ∧
    called `prefix_of` targets display_name found ∧
    deleted ⊆ called ∧
    ((r.1 = Return tt ∧ called = targets display_name found ∧ deleted = called) ∨
     (∃ e, r.1 = Raise e)).
Proof.
  intros request found r. subst r.
  rewrite delete_scheduled_query_unfold. fold request found.
  pose (w1 := set_trace (trace w ++ [EvListTransferConfigs request]) w).
  assert (Hfail : ∀ rest,
    ∃ called deleted,
      trace (set_transfer_faults rest w1) =
        trace w ++ EvListTransferConfigs request :: (EvDeleteTransferConfig <$> called) ∧
      transfer_configs (set_transfer_faults rest w1) =
        delete_all deleted (transfer_configs w) ∧
      called `prefix_of` targets display_name found ∧ deleted ⊆ called ∧
      ((@Raise unit GoogleAPICallError = Return tt ∧
        called = targets display_name found ∧ deleted = called) ∨
       (∃ e, @Raise unit GoogleAPICallError = Raise e))).
  { intros rest. exists [], []. split_and!;
      [done | done | apply prefix_nil | done | right; eauto]. }
  assert (Hloop : ∀ w2, trace w2 = trace w ++ [EvListTransferConfigs request] →
    transfer_configs w2 = transfer_configs w →
    let r := for_each found (λ config,
               if decide (TransferConfig.display_name config = display_name)
               then delete_transfer_config (TransferConfig.name config)
               else ret tt) w2 in
    ∃ called deleted,
      trace r.2 = trace w ++ EvListTransferConfigs request ::
                    (EvDeleteTransferConfig <$> called) ∧
      transfer_configs r.2 = delete_all deleted (transfer_configs w) ∧
      called `prefix_of` targets display_name found ∧ deleted ⊆ called ∧
      ((r.1 = Return tt ∧ called = targets display_name found ∧ deleted = called) ∨
       (∃ e, r.1 = Raise e))).
  { intros w2 Htr Hst.
    destruct (delete_loop_run display_name found w2)
      as (called & deleted & Htr' & Hst' & Hpre & Hsub & Hres).
    exists called, deleted. split_and!; try done.
    - rewrite Htr', Htr. by rewrite <-app_assoc.
    - by rewrite Hst', Hst. }
  destruct (transfer_faults w) as [|[] rest].
  - by apply Hloop.
  - apply (Hfail rest).
  - by apply Hloop.
Qed.

(** Whatever the call ends in, it removes nothing but scheduled queries of
    the location that carry the display name, and it adds nothing. *)
Lemma delete_scheduled_query_frame display_name project_id region w k s :
  transfer_configs w !! k = Some s →
  ¬ scheduled_query_named display_name (common_location_path project_id region) s →
  transfer_configs (delete_scheduled_query display_name project_id region w).2 !! k = Some s.
Proof.
  intros Hk Hnot.
  destruct (delete_scheduled_query_run display_name project_id region w)
    as (called & deleted & _ & Hst & Hpre & Hsub & _).
  rewrite Hst, lookup_delete_all. case_decide as Hin; [|done].
  exfalso. apply Hnot.
  apply Hsub in Hin. eapply elem_of_prefix in Hin; [|exact Hpre].
  apply elem_of_targets_listing in Hin as (s' & Hk' & Hl & Hdn).
  apply listed_scheduled_queries in Hl as [Hp Hd].
  assert (s' = s) as -> by congruence. done.
Qed.

Lemma delete_scheduled_query_subseteq display_name project_id region w :
  transfer_configs (delete_scheduled_query display_name project_id region w).2 ⊆
  transfer_configs w.
Proof.
  destruct (delete_scheduled_query_run display_name project_id region w)
    as (called & deleted & _ & Hst & _).
  rewrite Hst. apply map_subseteq_spec. intros k s.
  rewrite lookup_delete_all. by case_decide.
Qed.

(** When the call returns, the scheduled queries of the location that carry
    the display name are gone, all of them. *)
Lemma delete_scheduled_query_returns display_name project_id region w :
  (delete_scheduled_query display_name project_id region w).1 = Return tt →
  transfer_configs (delete_scheduled_query display_name project_id region w).2 =
  filter (λ kv : string * StoredConfig,
            ¬ scheduled_query_named display_name
                (common_location_path project_id region) kv.2)
         (transfer_configs w).
Proof.
  intros Hret.
  destruct (delete_scheduled_query_run display_name project_id region w)
    as (called & deleted & _ & Hst & _ & _ & [(_ & Hall & ->)|(e & He)]);
    [|congruence].
  rewrite Hst. apply map_eq. intros k.
  rewrite lookup_delete_all, map_lookup_filter. subst called.
  destruct (transfer_configs w !! k) as [s|] eqn:Hk; simpl.
  - case_decide as Hin.
    + apply elem_of_targets_listing in Hin as (s' & Hk' & Hl & Hdn).
      apply listed_scheduled_queries in Hl as [Hp Hd].
      assert (s' = s) as -> by congruence.
      rewrite option_guard_False; [done|]. intros Hn. apply Hn. by split_and!.
    + rewrite option_guard_True; [done|].
      intros (Hp & Hd & Hdn). apply Hin, elem_of_targets_listing.
      exists s. split_and!; [done| |done]. by apply listed_scheduled_queries.
  - by case_decide.
Qed.

Lemma delete_transfer_config_ok name w :
  no_faults w → is_Some (transfer_configs w !! name) →
  ∃ w', delete_transfer_config name w = (Return tt, w') ∧
        transfer_configs w' = delete name (transfer_configs w) ∧
        no_faults w'.
Proof.
  unfold no_faults. intros Hf [s Hs].
  unfold delete_transfer_config, transfer_call, bind, log. simpl.
  destruct (transfer_faults w) as [|b rest] eqn:Hfaults.
  - simpl. rewrite Hs. eexists. split_and!; [done..|]. simpl. by rewrite Hfaults.
  - apply Forall_cons in Hf as [-> Hrest]. simpl. rewrite Hs.
    eexists. split_and!; done.
Qed.

Lemma delete_loop_returns display_name l w :
  no_faults w →
  NoDup (targets display_name l) →
  (∀ k, k ∈ targets display_name l → is_Some (transfer_configs w !! k)) →
  ∃ w', for_each l (λ config,
          if decide (TransferConfig.display_name config = display_name)
          then delete_transfer_config (TransferConfig.name config)
          else ret tt) w = (Return tt, w') ∧ no_faults w'.
Proof.
  revert w. induction l as [|c l IH]; intros w Hf Hnd Hin; [by exists w|].
  simpl. unfold targets in *.
  destruct (decide (TransferConfig.display_name c = display_name)) as [Heq|Hne].
  - rewrite filter_cons_True in Hnd, Hin by done. simpl in *.
    apply NoDup_cons in Hnd as [Hnotin Hnd].
    destruct (delete_transfer_config_ok (TransferConfig.name c) w)
      as (w' & Hrun & Hst & Hf'); [done | apply Hin; left |].
    rewrite (bind_Return _ _ _ _ _ Hrun).
    apply IH; [done..|].
    intros k Hk. rewrite Hst, lookup_delete_ne.
    + apply Hin. by right.
    + intros <-. done.
  - rewrite filter_cons_False in Hnd, Hin by done.
    unfold bind. simpl. by apply IH.
Qed.

(** With a service that does not fail, [delete_scheduled_query] returns. *)
Lemma delete_scheduled_query_total display_name project_id region w :
  no_faults w →
  ∃ w', delete_scheduled_query display_name project_id region w = (Return tt, w') ∧
        no_faults w'.
Proof.
  intros Hf. rewrite delete_scheduled_query_unfold.
  assert (Hloop : ∀ w2, no_faults w2 → transfer_configs w2 = transfer_configs w →
    ∃ w', for_each (listing (scheduled_queries_of project_id region) (transfer_configs w))
       (λ config,
          if decide (TransferConfig.display_name config = display_name)
          then delete_transfer_config (TransferConfig.name config)
          else ret tt) w2 = (Return tt, w') ∧ no_faults w').
  { intros w2 Hf2 Hst. apply delete_loop_returns; [done| |].
    - apply NoDup_targets_listing.
    - intros k Hk. apply elem_of_targets_listing in Hk as (s & Hk & _).
      rewrite Hst. eauto. }
  unfold no_faults in Hf.
  destruct (transfer_faults w) as [|b rest] eqn:Hfaults.
  - apply Hloop; [|done]. unfold no_faults. simpl. by rewrite Hfaults.
  - apply Forall_cons in Hf as [-> Hrest]. by apply Hloop.
Qed.

(** Configs of a kind that a call never removes, under a call that adds
    nothing, are the same before and after. *)
Lemma filter_untouched (P : string * StoredConfig → Prop) `{!∀ kv, Decision (P kv)}
    (before after : gmap string StoredConfig) :
  after ⊆ before →
  (∀ k s, before !! k = Some s → P (k, s) → after !! k = Some s) →
  filter P after = filter P before.
Proof.
  intros Hsub Hkeep. apply map_eq. intros k. rewrite !map_lookup_filter.
  destruct (before !! k) as [s|] eqn:Hb; simpl.
  - destruct (decide (P (k, s))) as [HP|HnP].
    + by rewrite (Hkeep k s Hb HP).
    + rewrite option_guard_False by done.
      destruct (after !! k) as [s'|] eqn:Ha; [|done]. simpl.
      rewrite (lookup_weaken _ _ _ _ Ha Hsub) in Hb. simplify_eq.
      by rewrite option_guard_False.
  - destruct (after !! k) as [s'|] eqn:Ha; [|done].
    rewrite (lookup_weaken _ _ _ _ Ha Hsub) in Hb. done.
Qed.

(** C1: [delete_scheduled_query display_name project_id region] returns
    whenever the service does not fail; when it returns, it has removed
    exactly the scheduled queries of the location [project_id]/[region]
    whose display name equals [display_name] (none, one or many) and nothing
    else; and however it ends, the configs whose display name differs are
    the same before and after. *)
Theorem delete_scheduled_query_exact display_name project_id region w :
  let r := delete_scheduled_query display_name project_id region w in
  let parent := common_location_path project_id region in
  (no_faults w → r.1 = Return tt) ∧
  (r.1 = Return tt →
   transfer_configs r.2 =
   filter (λ kv : string * StoredConfig,
             ¬ scheduled_query_named display_name parent kv.2)
          (transfer_configs w)) ∧
  filter (λ kv : string * StoredConfig, stored_display_name kv.2 ≠ display_name)
         (transfer_configs r.2) =
  filter (λ kv : string * StoredConfig, stored_display_name kv.2 ≠ display_name)
         (transfer_configs w).
Proof.
  intros r parent. split_and!.
  - intros Hf. subst r.
    by destruct (delete_scheduled_query_total display_name project_id region w Hf)
      as (w' & -> & _).
  - apply delete_scheduled_query_returns.
  - apply filter_untouched.
    + apply delete_scheduled_query_subseteq.
    + intros k s Hk Hdn. apply delete_scheduled_query_frame; [done|].
      intros (_ & _ & ?). done.
Qed.

(** C10: the list request of [delete_scheduled_query] names the one data
    source 'scheduled_query', and however the call ends (it may fail half
    way), the transfer configs of every other data source are the same
    before and after, whatever their display name. *)
Theorem delete_scheduled_query_other_sources display_name project_id region w :
  let r := delete_scheduled_query display_name project_id region w in
  (∃ later,
     trace r.2 = trace w ++
       EvListTransferConfigs
         (ListTransferConfigsRequest.mk
            (common_location_path project_id region) ["scheduled_query"]) ::
       later ∧
     Forall (λ e, ∀ request, e ≠ EvListTransferConfigs request) later) ∧
  filter (λ kv : string * StoredConfig, stored_data_source_id kv.2 ≠ "scheduled_query")
         (transfer_configs r.2) =
  filter (λ kv : string * StoredConfig, stored_data_source_id kv.2 ≠ "scheduled_query")
         (transfer_configs w).
Proof.
  intros r. split.
  - destruct (delete_scheduled_query_run display_name project_id region w)
      as (called & deleted & Htr & _).
    exists (EvDeleteTransferConfig <$> called). split; [exact Htr|].
    apply Forall_fmap, Forall_true. intros name request. done.
  - apply filter_untouched.
    + apply delete_scheduled_query_subseteq.
    + intros k s Hk Hds. apply delete_scheduled_query_frame; [done|].
      intros (_ & ? & _). done.
Qed.

(** ** deploy_scheduled_materialize_query *)

Lemma string_app_assoc (a b c : string) : (a +:+ b) +:+ c = a +:+ (b +:+ c).
Proof.
  induction a as [|x a IH]; [done|].
  change (String x ((a +:+ b) +:+ c) = String x (a +:+ (b +:+ c))).
  by rewrite IH.
Qed.

Lemma deploy_scheduled_materialize_query_unfold project_id region ga_property w :
  let d := delete_scheduled_query "Update Web Vitals Summary" project_id region w in
  let c := create_transfer_config
             (materialize_request project_id region ga_property) d.2 in
  deploy_scheduled_materialize_query project_id region ga_property w =
    match d.1 with
    | Return _ =>
      (match c.1 with
       | Return _ => Return tt
       | Raise e => Raise e
       | OutOfFuel => OutOfFuel
       end, c.2)
    | Raise e => (Raise e, d.2)
    | OutOfFuel => (OutOfFuel, d.2)
    end.
Proof.
  unfold deploy_scheduled_materialize_query, bind.
  fold (materialize_request project_id region ga_property).
  destruct (delete_scheduled_query _ _ _ w) as [[[]|e|] w1]; simpl; [|done..].
  by destruct (create_transfer_config _ w1) as [[c|e|] w2].
Qed.

Lemma materialize_query_table project_id ga_property :
  contains (materialize_query project_id ga_property)
    ("`" +:+ project_id +:+ ".analytics_" +:+ format_value ga_property +:+
     ".web_vitals_summary`").
Proof.
  pose (head := String.substring 0 (String.length sql_header - 1) sql_header).
  pose (rest := String.substring 20 (String.length sql_select - 20) sql_select).
  exists head, (rest +:+ project_id +:+ ".analytics_" +:+
                format_value ga_property +:+ sql_footer).
  unfold materialize_query.
  assert (sql_header = head +:+ "`") as -> by (vm_compute; reflexivity).
  assert (sql_select = ".web_vitals_summary`" +:+ rest) as -> by (vm_compute; reflexivity).
  by rewrite !string_app_assoc.
Qed.

Lemma materialize_query_events project_id ga_property :
  contains (materialize_query project_id ga_property)
    ("`" +:+ project_id +:+ ".analytics_" +:+ format_value ga_property +:+
     ".events_*`").
Proof.
  pose (head := String.substring 0 (String.length sql_select - 1) sql_select).
  pose (rest := String.substring 10 (String.length sql_footer - 10) sql_footer).
  exists (sql_header +:+ project_id +:+ ".analytics_" +:+
          format_value ga_property +:+ head), rest.
  unfold materialize_query.
  assert (sql_footer = ".events_*`" +:+ rest) as Hfooter by (vm_compute; reflexivity).
  assert (sql_select = head +:+ "`") as Hselect by (vm_compute; reflexivity).
  rewrite Hfooter at 1. rewrite Hselect at 1.
  by rewrite !string_app_assoc.
Qed.

Lemma create_transfer_config_ok request w :
  no_faults w → ∃ c w', create_transfer_config request w = (Return c, w').
Proof.
  unfold no_faults, create_transfer_config, transfer_call, bind, log. simpl.
  intros Hf. destruct (transfer_faults w) as [|b rest]; [eauto|].
  apply Forall_cons in Hf as [-> _]. eauto.
Qed.

(** With a service that does not fail, the deployment returns. *)
Lemma deploy_scheduled_materialize_query_total project_id region ga_property w :
  no_faults w →
  (deploy_scheduled_materialize_query project_id region ga_property w).1 = Return tt.
Proof.
  intros Hf. rewrite deploy_scheduled_materialize_query_unfold.
  destruct (delete_scheduled_query_total "Update Web Vitals Summary"
              project_id region w Hf) as (w1 & -> & Hf1). simpl.
  by destruct (create_transfer_config_ok
                 (materialize_request project_id region ga_property) w1 Hf1)
    as (c & w2 & ->).
Qed.

(** C2: whenever the deletion pass returns, the deployment submits, as its
    next and last call, one create request: display name 'Update Web Vitals
    Summary', data source 'scheduled_query', schedule 'every 24 hours', and
    as the query the template with [project_id] and [ga_property] put in
    place; that query contains the two table identifiers
    `project.analytics_property.web_vitals_summary` and
    `project.analytics_property.events_*`.  In no run is any other create
    request submitted. *)
Theorem deploy_create_request project_id region ga_property w :
  let d := delete_scheduled_query "Update Web Vitals Summary" project_id region w in
  let r := deploy_scheduled_materialize_query project_id region ga_property w in
  let query := materialize_query project_id ga_property in
  let request :=
    CreateTransferConfigRequest.mk
      (common_location_path project_id region)
      (TransferConfig.mk "" "Update Web Vitals Summary" "scheduled_query"
         {[ "query" := query ]} "every 24 hours") in
  (d.1 = Return tt → trace r.2 = trace d.2 ++ [EvCreateTransferConfig request]) ∧
  (∃ evs, trace r.2 = trace w ++ evs ∧
          Forall (λ e, ∀ q, e = EvCreateTransferConfig q → q = request) evs) ∧
  query = sql_header +:+ project_id +:+ ".analytics_" +:+ format_value ga_property +:+
          sql_select +:+ project_id +:+ ".analytics_" +:+ format_value ga_property +:+
          sql_footer ∧
  contains query
    ("`" +:+ project_id +:+ ".analytics_" +:+ format_value ga_property +:+
     ".web_vitals_summary`") ∧
  contains query
    ("`" +:+ project_id +:+ ".analytics_" +:+ format_value ga_property +:+
     ".events_*`").
Proof.
  intros d r query request.
  assert (Hrun := deploy_scheduled_materialize_query_unfold
                    project_id region ga_property w).
  simpl in Hrun. fold d r in Hrun.
  change (materialize_request project_id region ga_property) with request in Hrun.
  destruct (create_transfer_config_run request d.2) as (Hctr & _).
  destruct (delete_scheduled_query_run "Update Web Vitals Summary" project_id region w)
    as (called & deleted & Hdtr & _).
  fold d in Hdtr.
  assert (Hdel : Forall (λ e, ∀ q, e = EvCreateTransferConfig q → q = request)
                   (EvListTransferConfigs (scheduled_queries_of project_id region)
                      :: (EvDeleteTransferConfig <$> called))).
  { constructor; [done|]. apply Forall_fmap, Forall_true. done. }
  split_and!.
  - intros Hd. rewrite Hrun, Hd. done.
  - destruct d.1 as [[]|e|]; rewrite Hrun; simpl.
    + eexists. split.
      * rewrite Hctr, Hdtr, <-app_assoc. done.
      * apply Forall_app. split; [exact Hdel|].
        constructor; [|done]. intros q [= ->]. done.
    + eexists. split; [exact Hdtr | exact Hdel].
    + eexists. split; [exact Hdtr | exact Hdel].
  - done.
  - apply materialize_query_table.
  - apply materialize_query_events.
Qed.

Lemma filter_after_removal (P : string * StoredConfig → Prop)
    `{!∀ kv, Decision (P kv)} (m : gmap string StoredConfig) :
  filter P (filter (λ kv, ¬ P kv) m) = ∅.
Proof.
  apply map_empty. intros k. apply map_lookup_filter_None. right.
  intros s Hs. by apply map_lookup_filter_Some in Hs as [_ Hnot].
Qed.

(** C3: a deployment that returns (its deletion pass and its create call
    both went through) has made its calls in the order list, delete ...,
    create, and leaves exactly one scheduled query named 'Update Web Vitals
    Summary' in the location: the one it created, stored beside the configs
    that were not such scheduled queries. *)
Theorem deploy_leaves_exactly_one project_id region ga_property w :
  let r := deploy_scheduled_materialize_query project_id region ga_property w in
  let parent := common_location_path project_id region in
  let request := materialize_request project_id region ga_property in
  let created :=
    of_message parent (CreateTransferConfigRequest.transfer_config request) in
  let others :=
    filter (λ kv : string * StoredConfig,
              ¬ scheduled_query_named "Update Web Vitals Summary" parent kv.2)
           (transfer_configs w) in
  r.1 = Return tt →
  trace r.2 =
    trace w ++
    EvListTransferConfigs (scheduled_queries_of project_id region) ::
    (EvDeleteTransferConfig <$>
       targets "Update Web Vitals Summary"
         (listing (scheduled_queries_of project_id region) (transfer_configs w))) ++
    [EvCreateTransferConfig request] ∧
  size (filter (λ kv : string * StoredConfig,
                  scheduled_query_named "Update Web Vitals Summary" parent kv.2)
               (transfer_configs r.2)) = 1 ∧
  ∃ n,
    others !! n = None ∧
    transfer_configs r.2 = <[n := created]> others ∧
    filter (λ kv : string * StoredConfig,
              scheduled_query_named "Update Web Vitals Summary" parent kv.2)
           (transfer_configs r.2) = {[ n := created ]}.
Proof.
  intros r parent request created others Hret.
  assert (Hrun := deploy_scheduled_materialize_query_unfold
                    project_id region ga_property w).
  simpl in Hrun. fold r request in Hrun.
  set (d := delete_scheduled_query "Update Web Vitals Summary" project_id region w) in *.
  destruct (delete_scheduled_query_run "Update Web Vitals Summary" project_id region w)
    as (called & deleted & Hdtr & _ & _ & _ & Hdres).
  fold d in Hdtr, Hdres.
  assert (Hdst := delete_scheduled_query_returns
                    "Update Web Vitals Summary" project_id region w).
  fold d parent others in Hdst.
  destruct (create_transfer_config_run request d.2) as (Hctr & Hcres).
  simpl in Hcres. fold parent created in Hcres.
  set (n := fresh_string (parent +:+ "/transferConfigs/") (transfer_configs d.2)) in *.
  assert (Hfresh : transfer_configs d.2 !! n = None) by apply fresh_string_fresh.
  destruct d.1 as [[]|e|] eqn:Hd1; rewrite Hrun in Hret; simpl in Hret; [|done..].
  destruct Hdres as [(_ & -> & _)|(e & ?)]; [|done].
  specialize (Hdst eq_refl).
  destruct Hcres as [(Hc1 & Hcst)|(Hc1 & _)]; [|by rewrite Hc1 in Hret].
  assert (Hnamed : scheduled_query_named "Update Web Vitals Summary" parent created)
    by done.
  assert (Hone : filter (λ kv : string * StoredConfig,
                           scheduled_query_named "Update Web Vitals Summary" parent kv.2)
                        (transfer_configs r.2) = {[ n := created ]}).
  { rewrite Hrun. simpl. rewrite Hcst, Hdst.
    rewrite map_filter_insert_True by done.
    unfold others.
    rewrite (filter_after_removal
               (λ kv, scheduled_query_named "Update Web Vitals Summary" parent kv.2)).
    apply insert_empty. }
  split_and!.
  - rewrite Hrun. simpl. rewrite Hctr, Hdtr, <-app_assoc. done.
  - rewrite Hone. apply map_size_singleton.
  - exists n. split_and!; [by rewrite <-Hdst|by rewrite Hrun; simpl; rewrite Hcst, Hdst|exact Hone].
Qed.

(** C4: when the deletion pass returns and the create call that follows
    raises, the deployment raises that same error; the create request is the
    last thing it sent (nothing is retried or restored); the configs are
    those the deletion pass left, so no scheduled query named 'Update Web
    Vitals Summary' is left in the location. *)
Theorem deploy_not_atomic project_id region ga_property w e :
  let d := delete_scheduled_query "Update Web Vitals Summary" project_id region w in
  let request := materialize_request project_id region ga_property in
  let r := deploy_scheduled_materialize_query project_id region ga_property w in
  let parent := common_location_path project_id region in
  d.1 = Return tt →
  (create_transfer_config request d.2).1 = Raise e →
  r.1 = Raise e ∧
  trace r.2 = trace d.2 ++ [EvCreateTransferConfig request] ∧
  transfer_configs r.2 =
    filter (λ kv : string * StoredConfig,
              ¬ scheduled_query_named "Update Web Vitals Summary" parent kv.2)
           (transfer_configs w) ∧
  filter (λ kv : string * StoredConfig,
            scheduled_query_named "Update Web Vitals Summary" parent kv.2)
         (transfer_configs r.2) = ∅.
Proof.
  intros d request r parent Hd Hc.
  assert (Hrun := deploy_scheduled_materialize_query_unfold
                    project_id region ga_property w).
  simpl in Hrun. fold d request r in Hrun. rewrite Hd, Hc in Hrun.
  assert (Hdst := delete_scheduled_query_returns
                    "Update Web Vitals Summary" project_id region w Hd).
  fold d parent in Hdst.
  destruct (create_transfer_config_run request d.2) as (Hctr & Hcres).
  destruct Hcres as [(Hc1 & _)|(_ & Hcst)]; [congruence|].
  assert (Hst : transfer_configs r.2 =
    filter (λ kv : string * StoredConfig,
              ¬ scheduled_query_named "Update Web Vitals Summary" parent kv.2)
           (transfer_configs w)).
  { rewrite Hrun. simpl. by rewrite Hcst, Hdst. }
  split_and!.
  - by rewrite Hrun.
  - by rewrite Hrun.
  - exact Hst.
  - rewrite Hst.
    apply (filter_after_removal
             (λ kv, scheduled_query_named "Update Web Vitals Summary" parent kv.2)).
Qed.

(** ** get_gcp_regions *)

Lemma foldl_append_region_name regions response_items :
  foldl append_region_name regions response_items =
  regions ++ omap region_name response_items.
Proof.
  revert regions. induction response_items as [|region l IH]; intros regions; simpl.
  - by rewrite app_nil_r.
  - rewrite IH. unfold append_region_name, region_name.
    destruct (region !! "name") as [n|]; [|done].
    destruct (decide (n = "")) as [->|Hn].
    + by rewrite decide_False by (intros Hn; by apply Hn).
    + rewrite decide_True by done. by rewrite <-app_assoc.
Qed.

Lemma execute_run request w :
  let w1 := set_trace (trace w ++ [EvRegionsList request]) w in
  execute request w =
    match compute_pages w with
    | Some page :: rest => (Return page, set_compute_pages rest w1)
    | None :: rest => (Raise HttpError, set_compute_pages rest w1)
    | [] => (Raise HttpError, w1)
    end.
Proof. done. Qed.

Lemma get_gcp_regions_loop_None fuel regions w :
  get_gcp_regions_loop fuel None regions w = (Return regions, w).
Proof. by destruct fuel. Qed.

(** Lines 36-37: the first request names the project, and is built. *)
Lemma get_gcp_regions_unfold fuel credentials project_id :
  get_gcp_regions fuel credentials project_id =
  get_gcp_regions_loop fuel (Some (regions_list_project project_id)) [].
Proof. done. Qed.

(** Lines 45-49 on a response. *)
Lemma next_request_run response w :
  next_request response w =
  match nextPageToken response with
  | Some _ => (Raise missing_project, w)
  | None => (Return None, w)
  end.
Proof. unfold next_request. by destruct (nextPageToken response). Qed.

(** A turn of the loop, answer by answer: a failed request and a page
    without 'items' raise; a page with a 'nextPageToken' raises at line 47,
    where the next request is built without its project; a page without one
    ends the loop. *)
Lemma get_gcp_regions_loop_turn fuel request regions w :
  get_gcp_regions_loop (S fuel) (Some request) regions w =
  let w1 := set_trace (trace w ++ [EvRegionsList request]) w in
  match compute_pages w with
  | Some page :: rest =>
    match items page with
    | Some its =>
      match nextPageToken page with
      | Some _ => (Raise missing_project, set_compute_pages rest w1)
      | None => (Return (regions ++ omap region_name its), set_compute_pages rest w1)
      end
    | None => (Raise (KeyError "items"), set_compute_pages rest w1)
    end
  | None :: rest => (Raise HttpError, set_compute_pages rest w1)
  | [] => (Raise HttpError, w1)
  end.
Proof.
  simpl. unfold bind at 1. rewrite execute_run.
  destruct (compute_pages w) as [|[page|] rest]; [done| |done].
  destruct (items page) as [its|]; [|done].
  unfold bind at 1. simpl. unfold bind at 1. rewrite next_request_run.
  destruct (nextPageToken page); [done|].
  by rewrite get_gcp_regions_loop_None, foldl_append_region_name.
Qed.

(** Whatever [get_gcp_regions] returns is, in order and with repetitions,
    what the pages it fetched contribute; those pages are a listing. *)
Lemma get_gcp_regions_loop_returns fuel : ∀ request regions w l w',
  get_gcp_regions_loop fuel request regions w = (Return l, w') →
  ∃ pages,
    compute_pages w = (Some <$> pages) ++ compute_pages w' ∧
    l = regions ++ concat (page_names <$> pages) ∧
    match request with
    | None => pages = []
    | Some _ => is_listing pages = true
    end.
Proof.
  intros request regions w l w' Hrun.
  destruct request as [request|].
  2:{ rewrite get_gcp_regions_loop_None in Hrun. injection Hrun as <- <-.
      exists []. by rewrite app_nil_r. }
  destruct fuel as [|fuel]; [done|].
  rewrite get_gcp_regions_loop_turn in Hrun. cbn zeta in Hrun.
  destruct (compute_pages w) as [|[page|] rest] eqn:Hpages; [done| |done].
  destruct (items page) as [its|] eqn:Hitems; [|done].
  destruct (nextPageToken page) as [token|] eqn:Htoken; [done|].
  injection Hrun as <- <-.
  exists [page]. split_and!.
  - done.
  - simpl. unfold page_names. rewrite Hitems. simpl. by rewrite app_nil_r.
  - cbn [is_listing]. rewrite Hitems, Htoken.
    by rewrite !bool_decide_eq_true_2 by eauto.
Qed.

(** On a finite script the loop ends, with a result or an exception: a unit
    of fuel per scripted answer, and one more, is enough. *)
Lemma get_gcp_regions_loop_ends fuel : ∀ request regions w,
  length (compute_pages w) < fuel →
  (get_gcp_regions_loop fuel request regions w).1 ≠ OutOfFuel.
Proof.
  intros request regions w Hfuel.
  destruct request as [request|]; [|by rewrite get_gcp_regions_loop_None].
  destruct fuel as [|fuel]; [lia|].
  rewrite get_gcp_regions_loop_turn. cbn zeta.
  by repeat case_match.
Qed.

(** C5, as the code has it: [get_gcp_regions] never follows a token.  On a
    page that has 'items' and a 'nextPageToken', the request for the next
    page is built at line 47 with the token and without the project, and
    building it raises TypeError('Missing required parameter "project"'):
    one request has been sent, the names of the first page are lost, and the
    pages after it are never fetched.  So whenever [get_gcp_regions]
    returns, the listing was a single page without a token, fetched with the
    one request for the project, and the result is what that page
    contributes. *)
Theorem get_gcp_regions_raises_at_token fuel credentials project_id w :
  (∀ page rest its token,
     compute_pages w = Some page :: rest →
     items page = Some its →
     nextPageToken page = Some token →
     0 < fuel →
     get_gcp_regions fuel credentials project_id w =
     (Raise missing_project,
      set_compute_pages rest
        (set_trace (trace w ++ [EvRegionsList (regions_list_project project_id)]) w))) ∧
  (∀ l w',
     get_gcp_regions fuel credentials project_id w = (Return l, w') →
     ∃ page,
       compute_pages w = Some page :: compute_pages w' ∧
       nextPageToken page = None ∧
       l = page_names page ∧
       trace w' = trace w ++ [EvRegionsList (regions_list_project project_id)]).
Proof.
  rewrite get_gcp_regions_unfold. split.
  - intros page rest its token Hpages Hitems Htoken Hfuel.
    destruct fuel as [|fuel]; [lia|].
    rewrite get_gcp_regions_loop_turn. cbn zeta.
    by rewrite Hpages, Hitems, Htoken.
  - intros l w' Hrun. destruct fuel as [|fuel]; [done|].
    rewrite get_gcp_regions_loop_turn in Hrun. cbn zeta in Hrun.
    destruct (compute_pages w) as [|[page|] rest] eqn:Hpages; [done| |done].
    destruct (items page) as [its|] eqn:Hitems; [|done].
    destruct (nextPageToken page) as [token|] eqn:Htoken; [done|].
    injection Hrun as <- <-. exists page. split_and!; [done..| |done].
    unfold page_names. by rewrite Hitems.
Qed.

(** C6, as the code has it: whatever [get_gcp_regions] returns is the
    concatenation, page after page and item after item, of the names of the
    items of the pages it fetched, where an item without the key 'name' or
    with the name '' contributes nothing; nothing else is dropped, nothing
    is reordered and repetitions are kept.  When every item has a name that
    is not '', the result is exactly the sequence of the items' names. *)
Theorem get_gcp_regions_names fuel credentials project_id w l w' :
  get_gcp_regions fuel credentials project_id w = (Return l, w') →
  ∃ pages,
    compute_pages w = (Some <$> pages) ++ compute_pages w' ∧
    is_listing pages = true ∧
    let all_items := concat ((λ page, default [] (items page)) <$> pages) in
    l = omap region_name all_items ∧
    (Forall (λ region : Region, ∃ n, region !! "name" = Some n ∧ n ≠ "") all_items →
     Some <$> l = (λ region : Region, region !! "name") <$> all_items).
Proof.
  rewrite get_gcp_regions_unfold. intros Hrun.
  apply get_gcp_regions_loop_returns in Hrun as (pages & Hscript & -> & Hl).
  exists pages. split; [done|]. split; [done|]. rewrite app_nil_l.
  assert (Hconcat : concat (page_names <$> pages) =
                    omap region_name
                      (concat ((λ page, default [] (items page)) <$> pages))).
  { clear. induction pages as [|page pages IH]; [done|].
    rewrite !fmap_cons. cbn [concat]. rewrite omap_app, IH. done. }
  split; [exact Hconcat|].
  rewrite Hconcat.
  generalize (concat ((λ page, default [] (items page)) <$> pages)).
  intros all_items Hall. induction Hall as [|region all_items (n & Hn & Hne) _ IH];
    [done|].
  simpl. unfold region_name at 1. rewrite Hn.
  rewrite decide_False by done. simpl. f_equal. exact IH.
Qed.

(** ** main *)

Lemma steps_impl (R R' : relation World) {A} (m : M A) :
  (∀ w w', R w w' → R' w w') → steps R m → steps R' m.
Proof. intros HR Hm w. apply HR, Hm. Qed.

Ltac steps_go :=
  repeat lazymatch goal with
    | |- PreOrder _ => apply _
    | |- ∀ _, steps _ _ => intros ?
    | |- steps _ (ret _) => apply steps_ret
    | |- steps _ (raise _) => apply steps_raise
    | |- steps _ out_of_fuel => apply steps_out_of_fuel
    | |- steps _ (getitem _ _) => apply steps_getitem
    | |- steps _ (bind _ _) => apply steps_bind
    | |- steps _ (for_each _ _) => apply steps_for_each
    end.

Lemma emits_get_gcp_regions_loop P fuel request regions :
  (∀ req, request = Some req → P (EvRegionsList req)) →
  steps (emits P) (get_gcp_regions_loop fuel request regions).
Proof.
  intros Hfirst w.
  destruct request as [req|]; [|rewrite get_gcp_regions_loop_None; reflexivity].
  destruct fuel as [|fuel]; [reflexivity|].
  rewrite get_gcp_regions_loop_turn. cbn zeta.
  assert (HP : emits P w (set_trace (trace w ++ [EvRegionsList req]) w)).
  { exists [EvRegionsList req]. split; [done|]. constructor; [by apply Hfirst | done]. }
  repeat case_match; exact HP.
Qed.

Lemma emits_get_gcp_regions P fuel credentials project_id :
  (∀ e, asks_or_lists_regions project_id e → P e) →
  steps (emits P) (get_gcp_regions fuel credentials project_id).
Proof.
  intros HP. rewrite get_gcp_regions_unfold. apply emits_get_gcp_regions_loop.
  intros req [= <-]. by apply HP.
Qed.

Lemma emits_main_region_loop P fuel credentials project_id : ∀ region,
  (∀ e, asks_or_lists_regions project_id e → P e) →
  steps (emits P) (main_region_loop fuel credentials project_id region).
Proof.
  induction fuel as [|fuel IH]; intros region HP; simpl;
    destruct (decide (region = "list")); steps_go.
  - by apply emits_get_gcp_regions.
  - apply emits_print. by apply HP.
  - apply emits_input. by apply HP.
  - by apply IH.
Qed.

Lemma emits_main_region P fuel credentials project_id args :
  (∀ e, asks_or_lists_regions project_id e → P e) →
  steps (emits P) (main_region fuel credentials project_id args).
Proof.
  intros HP. unfold main_region. destruct (truthy_str _); steps_go.
  - apply emits_input. by apply HP.
  - by apply emits_main_region_loop.
Qed.

Lemma emits_main_ga_property P args :
  (∀ prompt, P (EvInput prompt)) → steps (emits P) (main_ga_property args).
Proof.
  intros HP. unfold main_ga_property. destruct (truthy_int _); steps_go.
  - apply emits_input, HP.
  - destruct (isdigit _); steps_go.
Qed.

Lemma emits_input_if_not P v prompt :
  (∀ prompt, P (EvInput prompt)) → steps (emits P) (input_if_not v prompt).
Proof.
  intros HP. unfold input_if_not. destruct (truthy_str _); steps_go.
  apply emits_input, HP.
Qed.

Lemma emits_main_email P args :
  (∀ prompt, P (EvInput prompt)) → steps (emits P) (main_email args).
Proof.
  intros HP. unfold main_email. steps_go; by apply emits_input_if_not.
Qed.

Lemma emits_delete_scheduled_query P display_name project_id region :
  P (EvListTransferConfigs (scheduled_queries_of project_id region)) →
  (∀ name, P (EvDeleteTransferConfig name)) →
  steps (emits P) (delete_scheduled_query display_name project_id region).
Proof.
  intros Hlist Hdelete. unfold delete_scheduled_query. steps_go.
  - by apply emits_list_transfer_configs.
  - case_decide; steps_go. apply emits_delete_transfer_config, Hdelete.
Qed.

Lemma emits_deploy_scheduled_materialize_query P project_id region ga_property :
  P (EvListTransferConfigs (scheduled_queries_of project_id region)) →
  (∀ name, P (EvDeleteTransferConfig name)) →
  P (EvCreateTransferConfig (materialize_request project_id region ga_property)) →
  steps (emits P) (deploy_scheduled_materialize_query project_id region ga_property).
Proof.
  intros Hlist Hdelete Hcreate. unfold deploy_scheduled_materialize_query. steps_go.
  - by apply emits_delete_scheduled_query.
  - by apply emits_create_transfer_config.
Qed.

(** Once [main] has a project id, every call it makes is for that project. *)
Lemma emits_main_steps fuel credentials project_id args :
  steps (emits (operation_of_project project_id))
    (main_steps fuel credentials project_id args).
Proof.
  unfold main_steps, deploy_p75_procedure, deploy_cloudrun_alerter,
    create_cloudrun_trigger.
  steps_go.
  - apply emits_main_region. by intros [].
  - by apply emits_main_ga_property.
  - by apply emits_main_email.
  - apply emits_deploy_scheduled_materialize_query; simpl; eauto.
Qed.

(** Nothing [main] does before the deployment touches the transfer configs. *)
Lemma keeps_google_auth_default : steps (keeps transfer_configs) google_auth_default.
Proof. intros w. unfold keeps, google_auth_default, bind, log. simpl. by case_match. Qed.

Lemma keeps_os_environ key : steps (keeps transfer_configs) (os_environ key).
Proof. intros w. unfold keeps, os_environ, bind, log. simpl. by case_match. Qed.

Lemma keeps_input prompt : steps (keeps transfer_configs) (input prompt).
Proof. intros w. unfold keeps, input, bind, log. simpl. by case_match. Qed.

Lemma keeps_print text : steps (keeps transfer_configs) (print text).
Proof. by intros w. Qed.

Lemma keeps_execute request : steps (keeps transfer_configs) (execute request).
Proof.
  intros w. unfold keeps, execute, bind, log. simpl.
  by repeat case_match.
Qed.

Lemma keeps_get_gcp_regions fuel credentials project_id :
  steps (keeps transfer_configs) (get_gcp_regions fuel credentials project_id).
Proof.
  intros w. rewrite get_gcp_regions_unfold.
  destruct fuel as [|fuel]; [done|].
  rewrite get_gcp_regions_loop_turn. cbn zeta. by repeat case_match.
Qed.

Lemma keeps_main_region_loop fuel credentials project_id : ∀ region,
  steps (keeps transfer_configs) (main_region_loop fuel credentials project_id region).
Proof.
  induction fuel as [|fuel IH]; intros region; simpl;
    destruct (decide (region = "list")); steps_go.
  - apply keeps_get_gcp_regions.
  - apply keeps_print.
  - apply keeps_input.
  - apply IH.
Qed.

Lemma keeps_main_region fuel credentials project_id args :
  steps (keeps transfer_configs) (main_region fuel credentials project_id args).
Proof.
  unfold main_region. destruct (truthy_str _); steps_go.
  - apply keeps_input.
  - apply keeps_main_region_loop.
Qed.

Lemma keeps_main_project_id : steps (keeps transfer_configs) main_project_id.
Proof.
  unfold main_project_id. steps_go; [apply keeps_google_auth_default|].
  destruct (truthy_str _); steps_go. apply keeps_os_environ.
Qed.

Lemma emits_main_project_id P :
  P EvAuthDefault → (∀ key, P (EvEnviron key)) → steps (emits P) main_project_id.
Proof.
  intros Hauth Henv. unfold main_project_id. steps_go.
  - by apply emits_google_auth_default.
  - destruct (truthy_str _); steps_go. apply emits_os_environ, Henv.
Qed.

(** The three ways lines 286-288 can go once credentials are found. *)
Lemma main_project_id_resolved w credentials resolved project_id :
  ambient w = Some (credentials, resolved) →
  truthy_str resolved = Some project_id →
  main_project_id w =
  (Return (credentials, project_id), set_trace (trace w ++ [EvAuthDefault]) w).
Proof.
  intros Hamb Htruthy. unfold main_project_id, google_auth_default, bind, log.
  simpl. rewrite Hamb. simpl. by rewrite Htruthy.
Qed.

Lemma main_project_id_environ w credentials resolved :
  ambient w = Some (credentials, resolved) →
  truthy_str resolved = None →
  main_project_id w =
  (match environ w !! "GOOGLE_CLOUD_PROJECT" with
   | Some project_id => Return (credentials, project_id)
   | None => Raise (KeyError "GOOGLE_CLOUD_PROJECT")
   end,
   set_trace (trace w ++ [EvAuthDefault; EvEnviron "GOOGLE_CLOUD_PROJECT"]) w).
Proof.
  intros Hamb Htruthy.
  unfold main_project_id, google_auth_default, os_environ, bind, log.
  simpl. rewrite Hamb. simpl. rewrite Htruthy. simpl.
  rewrite <-app_assoc. simpl.
  by destruct (environ w !! "GOOGLE_CLOUD_PROJECT").
Qed.

(** C9: when the credentials resolve no project id (None or '') and the
    environment has no GOOGLE_CLOUD_PROJECT, [main] raises
    KeyError('GOOGLE_CLOUD_PROJECT'); all it has done by then is resolve the
    credentials and look the variable up: no prompt, no cloud API call,
    nothing read from standard input, no transfer config touched. *)
Theorem main_no_project_id fuel args w credentials resolved :
  ambient w = Some (credentials, resolved) →
  truthy_str resolved = None →
  environ w !! "GOOGLE_CLOUD_PROJECT" = None →
  let r := main fuel args w in
  r = (Raise (KeyError "GOOGLE_CLOUD_PROJECT"),
       set_trace (trace w ++ [EvAuthDefault; EvEnviron "GOOGLE_CLOUD_PROJECT"]) w) ∧
  (∃ evs, trace r.2 = trace w ++ evs ∧
          Forall (λ e, is_prompt e = false ∧ is_api_call e = false) evs) ∧
  stdin r.2 = stdin w ∧
  transfer_configs r.2 = transfer_configs w.
Proof.
  intros Hamb Htruthy Henv r.
  assert (Hr : r = (Raise (KeyError "GOOGLE_CLOUD_PROJECT"),
       set_trace (trace w ++ [EvAuthDefault; EvEnviron "GOOGLE_CLOUD_PROJECT"]) w)).
  { subst r. unfold main.
    apply bind_Raise.
    by rewrite (main_project_id_environ w credentials resolved), Henv. }
  split_and!; [done| |by rewrite Hr..].
  rewrite Hr. eexists. split; [done|]. by repeat constructor.
Qed.

(** C8: when the credentials resolve no project id (None or ''), [main]
    reads GOOGLE_CLOUD_PROJECT and goes on with its value: the rest of the
    run is [main_steps] on that value, and every call it makes afterwards
    (the region listings, the list, delete and create calls of the
    deployment) is for that project.  When the credentials resolve a project
    id that is not '', [main] goes on with it, every call is for it, and the
    environment is never read. *)
Theorem main_project_id_source fuel args w credentials resolved :
  ambient w = Some (credentials, resolved) →
  let r := main fuel args w in
  match truthy_str resolved with
  | None =>
    ∀ value, environ w !! "GOOGLE_CLOUD_PROJECT" = Some value →
      r = main_steps fuel credentials value args
            (set_trace (trace w ++ [EvAuthDefault; EvEnviron "GOOGLE_CLOUD_PROJECT"]) w) ∧
      ∃ evs, trace r.2 =
               trace w ++ [EvAuthDefault; EvEnviron "GOOGLE_CLOUD_PROJECT"] ++ evs ∧
             Forall (operation_of_project value) evs
  | Some project_id =>
    r = main_steps fuel credentials project_id args
          (set_trace (trace w ++ [EvAuthDefault]) w) ∧
    ∃ evs, trace r.2 = trace w ++ EvAuthDefault :: evs ∧
           Forall (operation_of_project project_id) evs ∧
           Forall (λ e, is_environ e = false) (EvAuthDefault :: evs)
  end.
Proof.
  intros Hamb r. destruct (truthy_str resolved) as [project_id|] eqn:Htruthy.
  - assert (Hr : r = main_steps fuel credentials project_id args
                       (set_trace (trace w ++ [EvAuthDefault]) w)).
    { subst r. unfold main.
      by rewrite (bind_Return _ _ _ _ _
                    (main_project_id_resolved w credentials resolved project_id
                       Hamb Htruthy)). }
    split; [exact Hr|].
    destruct (emits_main_steps fuel credentials project_id args
                (set_trace (trace w ++ [EvAuthDefault]) w)) as (evs & Htr & Hevs).
    exists evs. rewrite Hr, Htr. simpl. split_and!.
    + by rewrite <-app_assoc.
    + exact Hevs.
    + constructor; [done|]. eapply Forall_impl; [exact Hevs|].
      by intros [].
  - intros value Henv.
    assert (Hr : r = main_steps fuel credentials value args
      (set_trace (trace w ++ [EvAuthDefault; EvEnviron "GOOGLE_CLOUD_PROJECT"]) w)).
    { subst r. unfold main.
      assert (Hrun := main_project_id_environ w credentials resolved Hamb Htruthy).
      rewrite Henv in Hrun.
      by rewrite (bind_Return _ _ _ _ _ Hrun). }
    split; [exact Hr|].
    destruct (emits_main_steps fuel credentials value args
      (set_trace (trace w ++ [EvAuthDefault; EvEnviron "GOOGLE_CLOUD_PROJECT"]) w))
      as (evs & Htr & Hevs).
    exists evs. rewrite Hr, Htr. simpl. split; [|exact Hevs].
    by rewrite <-app_assoc.
Qed.

Lemma main_ga_property_rejects args w line rest :
  truthy_int (Namespace.ga_property args) = None →
  stdin w = line :: rest →
  isdigit (strip line) = false →
  main_ga_property args w =
  (Raise (SystemExit "Only GA4 properties are supported at this time."),
   set_stdin rest
     (set_trace
        (trace w ++
         [EvInput "Please enter the GA property ID you are collecting CWV data with: "])
        w)).
Proof.
  intros Hflag Hin Hbad. unfold main_ga_property, input, bind, log.
  rewrite Hflag. simpl. rewrite Hin. simpl. by rewrite Hbad.
Qed.

(** C7, as the code has it: in a run in which [main] gets as far as the
    property prompt (credentials, project id and region are resolved), no
    property id came from the command line, and the line typed at the
    prompt, stripped, fails [isdigit], [main] raises SystemExit('Only GA4
    properties are supported at this time.').  Up to that exit no Data
    Transfer call has been made and no transfer config has changed; the
    only cloud API calls that can have been made are the region listings
    asked for with 'list' at the region prompt, and when the region came
    from the command line there has been no cloud API call at all. *)
Theorem main_rejects_non_numeric_property
    fuel args w credentials project_id w1 region w2 line rest :
  main_project_id w = (Return (credentials, project_id), w1) →
  main_region fuel credentials project_id args w1 = (Return region, w2) →
  truthy_int (Namespace.ga_property args) = None →
  stdin w2 = line :: rest →
  isdigit (strip line) = false →
  let r := main fuel args w in
  r.1 = Raise (SystemExit "Only GA4 properties are supported at this time.") ∧
  transfer_configs r.2 = transfer_configs w ∧
  ∃ evs,
    trace r.2 =
      trace w ++ evs ++
      [EvInput "Please enter the GA property ID you are collecting CWV data with: "] ∧
    Forall (λ e, is_transfer_call e = false) evs ∧
    (is_Some (truthy_str (Namespace.region args)) →
     Forall (λ e, is_api_call e = false) evs).
Proof.
  intros Hproject Hregion Hflag Hin Hbad r.
  assert (Hr : r =
    (Raise (SystemExit "Only GA4 properties are supported at this time."),
     set_stdin rest
       (set_trace
          (trace w2 ++
           [EvInput "Please enter the GA property ID you are collecting CWV data with: "])
          w2))).
  { subst r. unfold main. rewrite (bind_Return _ _ _ _ _ Hproject). simpl.
    unfold main_steps. rewrite (bind_Return _ _ _ _ _ Hregion).
    apply bind_Raise. by apply (main_ga_property_rejects args w2 line rest). }
  pose (Q := λ e, is_transfer_call e = false ∧
                  (is_Some (truthy_str (Namespace.region args)) →
                   is_api_call e = false)).
  assert (H1 : emits Q w w1).
  { assert (Hs := emits_main_project_id Q). unfold steps in Hs.
    specialize (Hs ltac:(done) ltac:(done) w). by rewrite Hproject in Hs. }
  assert (H2 : emits Q w1 w2).
  { assert (Hs : steps (emits Q) (main_region fuel credentials project_id args)).
    { destruct (truthy_str (Namespace.region args)) as [given|] eqn:Hgiven.
      - unfold main_region. rewrite Hgiven. apply steps_ret. apply _.
      - apply emits_main_region. intros [] He; try done.
        all: split; [done|]; by intros []. }
    specialize (Hs w1). by rewrite Hregion in Hs. }
  destruct (transitivity H1 H2) as (evs & Htr & Hevs).
  split_and!.
  - by rewrite Hr.
  - rewrite Hr. simpl.
    assert (K1 := keeps_main_project_id w). rewrite Hproject in K1.
    assert (K2 := keeps_main_region fuel credentials project_id args w1).
    rewrite Hregion in K2. unfold keeps in *. simpl in *. congruence.
  - exists evs. rewrite Hr. simpl. rewrite Htr, <-app_assoc. split_and!; [done| |].
    + eapply Forall_impl; [exact Hevs|]. by intros e [? _].
    + intros Hgiven. eapply Forall_impl; [exact Hevs|]. intros e [_ He]. by apply He.
Qed.

(** ** Termination of main *)

#[global] Instance consumes_preorder : PreOrder consumes.
Proof.
  split.
  - by intros w.
  - intros w1 w2 w3 [? ?] [? ?]. unfold consumes in *. lia.
Qed.

Lemma ends_ret {A} (a : A) : ends (ret a).
Proof. by intros w. Qed.

Lemma ends_raise {A} e : ends (@raise A e).
Proof. by intros w. Qed.

Lemma ends_bind {A B} (m : M A) (k : A → M B) :
  ends m → (∀ a, ends (k a)) → ends (bind m k).
Proof.
  intros Hm Hk w. unfold bind. specialize (Hm w).
  destruct (m w) as [[a|e|] w']; simpl in *; [apply Hk | done | done].
Qed.

Lemma ends_for_each {A} (l : list A) (body : A → M unit) :
  (∀ x, ends (body x)) → ends (for_each l body).
Proof.
  intros Hbody. induction l as [|x l IH]; simpl; [apply ends_ret|].
  apply ends_bind; [apply Hbody | intros _; exact IH].
Qed.

Lemma ends_log e : ends (log e).
Proof. by intros w. Qed.

Lemma ends_google_auth_default : ends google_auth_default.
Proof.
  intros w. unfold google_auth_default, bind, log. simpl. by case_match.
Qed.

Lemma ends_os_environ key : ends (os_environ key).
Proof. intros w. unfold os_environ, bind, log. simpl. by case_match. Qed.

Lemma ends_input prompt : ends (input prompt).
Proof. intros w. unfold input, bind, log. simpl. by case_match. Qed.

Lemma ends_transfer_call {A} e (op : M A) : ends op → ends (transfer_call e op).
Proof.
  intros Hop w. unfold transfer_call, bind, log. simpl.
  destruct (transfer_faults w) as [|[] rest]; simpl; [apply Hop | done | apply Hop].
Qed.

Lemma ends_main_project_id : ends main_project_id.
Proof.
  unfold main_project_id. apply ends_bind; [apply ends_google_auth_default|].
  intros found. destruct (truthy_str _); [apply ends_ret|].
  apply ends_bind; [apply ends_os_environ | intros ?; apply ends_ret].
Qed.

Lemma ends_main_ga_property args : ends (main_ga_property args).
Proof.
  unfold main_ga_property. destruct (truthy_int _); [apply ends_ret|].
  apply ends_bind; [apply ends_input|]. intros answer.
  destruct (isdigit _); [apply ends_ret | apply ends_raise].
Qed.

Lemma ends_input_if_not v prompt : ends (input_if_not v prompt).
Proof.
  unfold input_if_not. destruct (truthy_str _); [apply ends_ret|].
  apply ends_bind; [apply ends_input | intros ?; apply ends_ret].
Qed.

Lemma ends_main_email args : ends (main_email args).
Proof.
  unfold main_email.
  repeat (apply ends_bind; [apply ends_input_if_not | intros ?]).
  apply ends_ret.
Qed.

Lemma ends_delete_scheduled_query display_name project_id region :
  ends (delete_scheduled_query display_name project_id region).
Proof.
  unfold delete_scheduled_query. apply ends_bind.
  - apply ends_transfer_call. by intros w.
  - intros configs. apply ends_for_each. intros config.
    case_decide; [|apply ends_ret].
    apply ends_transfer_call. intros w. by case_match.
Qed.

Lemma ends_deploy_scheduled_materialize_query project_id region ga_property :
  ends (deploy_scheduled_materialize_query project_id region ga_property).
Proof.
  unfold deploy_scheduled_materialize_query.
  apply ends_bind; [apply ends_delete_scheduled_query | intros _].
  apply ends_bind; [|intros ?; apply ends_ret].
  apply ends_transfer_call. by intros w.
Qed.

Lemma consumes_execute request : steps consumes (execute request).
Proof.
  intros w. unfold consumes, execute, bind, log. simpl.
  destruct (compute_pages w) as [|[page|] rest] eqn:Hpages; simpl;
    rewrite ?Hpages; simpl; lia.
Qed.

Lemma consumes_get_gcp_regions_loop fuel request regions :
  steps consumes (get_gcp_regions_loop fuel request regions).
Proof.
  intros w. destruct request as [req|];
    [|rewrite get_gcp_regions_loop_None; reflexivity].
  destruct fuel as [|fuel]; [reflexivity|].
  rewrite get_gcp_regions_loop_turn. cbn zeta. unfold consumes.
  destruct (compute_pages w) as [|[page|] rest] eqn:Hpages;
    repeat case_match; simpl; rewrite ?Hpages; simpl; lia.
Qed.

Lemma consumes_google_auth_default : steps consumes google_auth_default.
Proof.
  intros w. unfold consumes, google_auth_default, bind, log. simpl.
  by case_match.
Qed.

Lemma consumes_os_environ key : steps consumes (os_environ key).
Proof.
  intros w. unfold consumes, os_environ, bind, log. simpl. by case_match.
Qed.

Lemma consumes_main_project_id : steps consumes main_project_id.
Proof.
  unfold main_project_id. steps_go; [apply consumes_google_auth_default|].
  destruct (truthy_str _); steps_go. apply consumes_os_environ.
Qed.

(** The loop at the region prompt reads a line per turn and
    [get_gcp_regions] an answer per turn of its own: with more fuel than
    there are lines and answers, neither runs out of it. *)
Lemma main_region_loop_ends fuel credentials project_id : ∀ region w,
  length (stdin w) + length (compute_pages w) < fuel →
  (main_region_loop fuel credentials project_id region w).1 ≠ OutOfFuel.
Proof.
  induction fuel as [|fuel IH]; intros region w Hfuel; [lia|].
  simpl. destruct (decide (region = "list")); [|done].
  unfold bind at 1.
  assert (Hpages' : length (compute_pages w) < S fuel) by lia.
  assert (Hends := get_gcp_regions_loop_ends (S fuel)
                     (Some (regions_list_project project_id)) [] w Hpages').
  assert (Hcons := consumes_get_gcp_regions_loop (S fuel)
                     (Some (regions_list_project project_id)) [] w).
  rewrite get_gcp_regions_unfold.
  destruct (get_gcp_regions_loop (S fuel) _ [] w) as [[region_list|err|] w1];
    [|done|done].
  destruct Hcons as [Hin Hpages]. simpl in Hin, Hpages.
  unfold print, input, log. repeat (unfold bind; simpl).
  destruct (stdin w1) as [|answer rest] eqn:Hstdin; [done|].
  apply IH. simpl in *. lia.
Qed.

(** With more fuel than there are lines on standard input and answers in the
    script of the Compute endpoint, [main] ends: it returns or raises. *)
Lemma main_ends fuel args w :
  length (stdin w) + length (compute_pages w) < fuel →
  (main fuel args w).1 ≠ OutOfFuel.
Proof.
  intros Hfuel. unfold main, bind at 1.
  assert (Hends := ends_main_project_id w).
  assert (Hcons := consumes_main_project_id w).
  destruct (main_project_id w) as [[[credentials project_id]|e|] w1]; [|done|done].
  destruct Hcons as [Hin Hpages]. simpl in Hin, Hpages. simpl.
  unfold main_steps, bind at 1.
  assert (Hregion : (main_region fuel credentials project_id args w1).1 ≠ OutOfFuel).
  { unfold main_region. destruct (truthy_str _); [done|].
    unfold input, log. repeat (unfold bind; simpl).
    destruct (stdin w1) as [|answer rest] eqn:Hstdin; [done|].
    apply main_region_loop_ends. simpl in *. lia. }
  destruct (main_region fuel credentials project_id args w1) as [[region|e|] w2];
    [|done|done].
  apply ends_bind; [apply ends_main_ga_property | intros ga_property].
  apply ends_bind; [apply ends_main_email | intros _].
  apply ends_bind; [apply ends_deploy_scheduled_materialize_query | intros _].
  repeat (apply ends_bind; [apply ends_ret | intros _]). apply ends_ret.
Qed.

(** * More of deploy.py *)

(** ** get_gcp_regions: a failing answer *)

(** X1: when the Compute endpoint answers the request of [get_gcp_regions]
    with an HTTP error, or with a page that has no key 'items' (an empty
    listing), [get_gcp_regions] raises (HttpError, KeyError('items')) right
    there: it has sent its one request, for the project, and it fetches
    nothing after the failing answer. *)
Theorem get_gcp_regions_failing_answer
    fuel credentials project_id w answer rest e :
  compute_pages w = answer :: rest →
  page_error answer = Some e →
  0 < fuel →
  get_gcp_regions fuel credentials project_id w =
  (Raise e,
   set_compute_pages rest
     (set_trace (trace w ++ [EvRegionsList (regions_list_project project_id)]) w)).
Proof.
  intros Hscript Herr Hfuel. rewrite get_gcp_regions_unfold.
  destruct fuel as [|fuel]; [lia|].
  rewrite get_gcp_regions_loop_turn. cbn zeta. rewrite Hscript.
  destruct answer as [page|]; simpl in Herr.
  - destruct (items page) as [its|]; [done|]. by injection Herr as <-.
  - by injection Herr as <-.
Qed.

(** ** delete_scheduled_query: calls, failures, repetition *)

(** The names the loop deletes are the names of the matching configs, each
    once. *)
Lemma targets_listing_matching display_name project_id region
    (m : gmap string StoredConfig) :
  targets display_name (listing (scheduled_queries_of project_id region) m) ≡ₚ
  (map_to_list
     (filter (λ kv : string * StoredConfig,
                scheduled_query_named display_name
                  (common_location_path project_id region) kv.2) m)).*1.
Proof.
  apply NoDup_Permutation.
  - apply NoDup_targets_listing.
  - apply NoDup_fst_map_to_list.
  - intros k. rewrite elem_of_targets_listing, list_elem_of_fmap. split.
    + intros (s & Hk & Hl & Hdn). exists (k, s). split; [done|].
      apply elem_of_map_to_list, map_lookup_filter_Some. split; [done|].
      apply listed_scheduled_queries in Hl as [? ?]. by split_and!.
    + intros ([k' s] & -> & Hks).
      apply elem_of_map_to_list, map_lookup_filter_Some in Hks as [Hk (Hp & Hd & Hdn)].
      simpl in *. exists s. split_and!; [done| |done].
      by apply listed_scheduled_queries.
Qed.

(** X2: when [delete_scheduled_query] returns it has made, after the one
    list call, exactly one delete call per scheduled query of the location
    that carries the display name: the names it called for are the names of
    those configs, each once, so their number is the number of those
    configs. *)
Theorem delete_scheduled_query_calls display_name project_id region w :
  let r := delete_scheduled_query display_name project_id region w in
  let matching :=
    filter (λ kv : string * StoredConfig,
              scheduled_query_named display_name
                (common_location_path project_id region) kv.2)
           (transfer_configs w) in
  r.1 = Return tt →
  ∃ names,
    trace r.2 =
      trace w ++ EvListTransferConfigs (scheduled_queries_of project_id region) ::
      (EvDeleteTransferConfig <$> names) ∧
    names ≡ₚ (map_to_list matching).*1 ∧
    length names = size matching.
Proof.
  intros r matching Hret.
  destruct (delete_scheduled_query_run display_name project_id region w)
    as (called & deleted & Htr & _ & _ & _ & [(_ & Hall & _)|(e & He)]).
  2:{ fold r in He. congruence. }
  exists called. split; [exact Htr|].
  assert (Hperm : called ≡ₚ (map_to_list matching).*1).
  { rewrite Hall. apply targets_listing_matching. }
  split; [exact Hperm|].
  by rewrite Hperm, length_fmap, length_map_to_list.
Qed.

(** With nothing to delete the call lists and does nothing else. *)
Lemma delete_scheduled_query_none display_name project_id region w :
  filter (λ kv : string * StoredConfig,
            scheduled_query_named display_name
              (common_location_path project_id region) kv.2)
         (transfer_configs w) = ∅ →
  let r := delete_scheduled_query display_name project_id region w in
  trace r.2 =
    trace w ++ [EvListTransferConfigs (scheduled_queries_of project_id region)] ∧
  transfer_configs r.2 = transfer_configs w.
Proof.
  intros Hnone r.
  destruct (delete_scheduled_query_run display_name project_id region w)
    as (called & deleted & Htr & Hst & Hpre & Hsub & _).
  assert (Htargets : targets display_name
            (listing (scheduled_queries_of project_id region) (transfer_configs w)) = []).
  { apply Permutation_nil_r. rewrite targets_listing_matching, Hnone.
    by rewrite map_to_list_empty. }
  rewrite Htargets in Hpre. apply prefix_nil_inv in Hpre as ->.
  assert (deleted = []) as ->.
  { destruct deleted as [|x deleted]; [done|].
    exfalso. eapply elem_of_nil, Hsub. left. }
  by split.
Qed.

(** X3: when no scheduled query of the location carries the display name,
    [delete_scheduled_query] makes its list call and no other call, changes
    no config, and returns unless that one call fails. *)
Theorem delete_scheduled_query_nothing_to_delete display_name project_id region w :
  filter (λ kv : string * StoredConfig,
            scheduled_query_named display_name
              (common_location_path project_id region) kv.2)
         (transfer_configs w) = ∅ →
  let r := delete_scheduled_query display_name project_id region w in
  trace r.2 =
    trace w ++ [EvListTransferConfigs (scheduled_queries_of project_id region)] ∧
  transfer_configs r.2 = transfer_configs w ∧
  r.1 = match transfer_faults w with
        | true :: _ => Raise GoogleAPICallError
        | _ => Return tt
        end.
Proof.
  intros Hnone r.
  destruct (delete_scheduled_query_none display_name project_id region w Hnone)
    as [Htr Hst].
  split; [exact Htr|]. split; [exact Hst|].
  assert (Htargets : targets display_name
            (listing (scheduled_queries_of project_id region) (transfer_configs w)) = []).
  { apply Permutation_nil_r. rewrite targets_listing_matching, Hnone.
    by rewrite map_to_list_empty. }
  subst r. rewrite delete_scheduled_query_unfold.
  assert (Hloop : ∀ w2,
    (for_each (listing (scheduled_queries_of project_id region) (transfer_configs w))
       (λ config,
          if decide (TransferConfig.display_name config = display_name)
          then delete_transfer_config (TransferConfig.name config)
          else ret tt) w2).1 = Return tt).
  { intros w2. unfold targets in Htargets. apply fmap_nil_inv in Htargets.
    induction (listing _ _) as [|c l IH]; [done|].
    rewrite filter_cons in Htargets. simpl.
    destruct (decide (TransferConfig.display_name c = display_name)); [done|].
    unfold bind. simpl. by apply IH. }
  destruct (transfer_faults w) as [|[] faults]; [apply Hloop | done | apply Hloop].
Qed.

Lemma delete_transfer_config_fault name w rest :
  transfer_faults w = true :: rest →
  delete_transfer_config name w =
  (Raise GoogleAPICallError,
   set_transfer_faults rest
     (set_trace (trace w ++ [EvDeleteTransferConfig name]) w)).
Proof.
  intros Hf. unfold delete_transfer_config, transfer_call, bind, log. simpl.
  by rewrite Hf.
Qed.

Lemma delete_transfer_config_pass name w rest s :
  transfer_faults w = false :: rest →
  transfer_configs w !! name = Some s →
  delete_transfer_config name w =
  (Return tt,
   set_transfer_configs (delete name (transfer_configs w))
     (set_transfer_faults rest
        (set_trace (trace w ++ [EvDeleteTransferConfig name]) w))).
Proof.
  intros Hf Hs. unfold delete_transfer_config, transfer_call, bind, log. simpl.
  rewrite Hf. simpl. by rewrite Hs.
Qed.

(** The loop under a service that lets [j] delete calls through and fails
    the next. *)
Lemma delete_loop_fails display_name l : ∀ j w rest,
  transfer_faults w = replicate j false ++ true :: rest →
  j < length (targets display_name l) →
  NoDup (targets display_name l) →
  (∀ k, k ∈ targets display_name l → is_Some (transfer_configs w !! k)) →
  let r := for_each l (λ config,
             if decide (TransferConfig.display_name config = display_name)
             then delete_transfer_config (TransferConfig.name config)
             else ret tt) w in
  r.1 = Raise GoogleAPICallError ∧
  trace r.2 =
    trace w ++ (EvDeleteTransferConfig <$> take (S j) (targets display_name l)) ∧
  transfer_configs r.2 =
    delete_all (take j (targets display_name l)) (transfer_configs w) ∧
  transfer_faults r.2 = rest.
Proof.
  induction l as [|c l IH]; intros j w rest Hf Hj Hnd Hin; [simpl in Hj; lia|].
  unfold targets in *. cbn [for_each].
  destruct (decide (TransferConfig.display_name c = display_name)) as [Heq|Hne].
  - rewrite filter_cons_True in Hj, Hnd, Hin |- * by done.
    rewrite fmap_cons in Hj, Hnd, Hin |- *.
    apply NoDup_cons in Hnd as [Hnotin Hnd].
    destruct j as [|j].
    + simpl in Hf.
      rewrite (bind_Raise _ _ _ _ _
                 (delete_transfer_config_fault (TransferConfig.name c) w rest Hf)).
      by split_and!.
    + simpl in Hf.
      destruct (Hin (TransferConfig.name c)) as [s Hs]; [left|].
      rewrite (bind_Return _ _ _ _ _
                 (delete_transfer_config_pass (TransferConfig.name c) w _ s Hf Hs)).
      match goal with |- context [for_each l ?body ?w'] =>
        destruct (IH j w' rest) as (Hr & Htr & Hst & Hfaults) end;
        [done | simpl in Hj; lia | done | |].
      * intros k Hk. simpl. rewrite lookup_delete_ne.
        -- apply Hin. by right.
        -- intros <-. done.
      * split_and!; [exact Hr| | |exact Hfaults].
        -- rewrite Htr. simpl. by rewrite <-app_assoc.
        -- rewrite Hst. done.
  - rewrite filter_cons_False in Hj, Hnd, Hin |- * by done.
    unfold bind at 1. simpl. by apply IH.
Qed.

(** X4: when the service lets the list call and [j] delete calls through
    and fails the next call, and more than [j] scheduled queries match,
    [delete_scheduled_query] raises at that call and stops: it has made the
    list call and [j + 1] delete calls, in listing order, the first [j]
    matching configs are gone and every other config is still there. *)
Theorem delete_scheduled_query_stops_at_first_failure
    display_name project_id region w j rest :
  let request := scheduled_queries_of project_id region in
  let matching := targets display_name (listing request (transfer_configs w)) in
  let r := delete_scheduled_query display_name project_id region w in
  transfer_faults w = replicate (S j) false ++ true :: rest →
  j < length matching →
  r.1 = Raise GoogleAPICallError ∧
  trace r.2 =
    trace w ++ EvListTransferConfigs request ::
    (EvDeleteTransferConfig <$> take (S j) matching) ∧
  transfer_configs r.2 = delete_all (take j matching) (transfer_configs w) ∧
  transfer_faults r.2 = rest.
Proof.
  intros request matching r Hf Hj. subst r.
  rewrite delete_scheduled_query_unfold. fold request. rewrite Hf.
  cbn [replicate app].
  match goal with |- context [for_each _ ?body ?w'] =>
    destruct (delete_loop_fails display_name (listing request (transfer_configs w))
                j w' rest) as (Hr & Htr & Hst & Hfaults) end.
  - done.
  - exact Hj.
  - apply NoDup_targets_listing.
  - intros k Hk. apply elem_of_targets_listing in Hk as (s & Hk & _). simpl. eauto.
  - split_and!; [exact Hr| |exact Hst|exact Hfaults].
    rewrite Htr. simpl. by rewrite <-app_assoc.
Qed.

(** X5: a second [delete_scheduled_query] after one that returned finds
    nothing to delete: it makes its list call and no other, and leaves the
    configs as the first call left them. *)
Theorem delete_scheduled_query_twice display_name project_id region w :
  let first := delete_scheduled_query display_name project_id region w in
  let second := delete_scheduled_query display_name project_id region first.2 in
  first.1 = Return tt →
  trace second.2 =
    trace first.2 ++
    [EvListTransferConfigs (scheduled_queries_of project_id region)] ∧
  transfer_configs second.2 = transfer_configs first.2.
Proof.
  intros first second Hret. subst first second.
  apply delete_scheduled_query_none.
  rewrite (delete_scheduled_query_returns display_name project_id region w Hret).
  apply (filter_after_removal
           (λ kv, scheduled_query_named display_name
                    (common_location_path project_id region) kv.2)).
Qed.

(** ** deploy_scheduled_materialize_query: what it leaves behind *)

(** The configs after a deployment, by how it ended. *)
Lemma deploy_scheduled_materialize_query_configs project_id region ga_property w :
  let d := delete_scheduled_query "Update Web Vitals Summary" project_id region w in
  let r := deploy_scheduled_materialize_query project_id region ga_property w in
  let parent := common_location_path project_id region in
  let request := materialize_request project_id region ga_property in
  let created :=
    of_message parent (CreateTransferConfigRequest.transfer_config request) in
  (r.1 = Return tt ∧ d.1 = Return tt ∧
   trace r.2 = trace d.2 ++ [EvCreateTransferConfig request] ∧
   ∃ n, transfer_configs d.2 !! n = None ∧
        transfer_configs r.2 = <[n := created]> (transfer_configs d.2)) ∨
  ((∃ e, r.1 = Raise e) ∧ transfer_configs r.2 = transfer_configs d.2).
Proof.
  intros d r parent request created.
  assert (Hrun := deploy_scheduled_materialize_query_unfold
                    project_id region ga_property w).
  simpl in Hrun. fold d r request in Hrun.
  destruct (delete_scheduled_query_run "Update Web Vitals Summary" project_id region w)
    as (called & deleted & _ & _ & _ & _ & Hdres).
  fold d in Hdres.
  destruct (create_transfer_config_run request d.2) as (Hctr & Hcres).
  simpl in Hcres. fold parent created in Hcres.
  destruct Hdres as [(Hd & _)|(e & Hd)]; rewrite Hd in Hrun.
  - destruct Hcres as [(Hc & Hst)|(Hc & Hst)]; rewrite Hc in Hrun.
    + left. rewrite Hrun. simpl. split_and!; [done..|].
      eexists. split; [apply fresh_string_fresh | exact Hst].
    + right. rewrite Hrun. simpl. eauto.
  - right. rewrite Hrun. simpl. eauto.
Qed.

Lemma deploy_scheduled_materialize_query_others project_id region ga_property w :
  let r := deploy_scheduled_materialize_query project_id region ga_property w in
  let parent := common_location_path project_id region in
  filter (λ kv : string * StoredConfig,
            ¬ scheduled_query_named "Update Web Vitals Summary" parent kv.2)
         (transfer_configs r.2) =
  filter (λ kv : string * StoredConfig,
            ¬ scheduled_query_named "Update Web Vitals Summary" parent kv.2)
         (transfer_configs w).
Proof.
  intros r parent.
  set (d := delete_scheduled_query "Update Web Vitals Summary" project_id region w).
  assert (Hd : filter (λ kv : string * StoredConfig,
                  ¬ scheduled_query_named "Update Web Vitals Summary" parent kv.2)
                 (transfer_configs d.2) =
               filter (λ kv : string * StoredConfig,
                  ¬ scheduled_query_named "Update Web Vitals Summary" parent kv.2)
                 (transfer_configs w)).
  { apply filter_untouched.
    - apply delete_scheduled_query_subseteq.
    - intros k s Hk Hs. by apply delete_scheduled_query_frame. }
  destruct (deploy_scheduled_materialize_query_configs project_id region ga_property w)
    as [(_ & _ & _ & n & Hfresh & Hst)|(_ & Hst)]; fold r d in Hst; rewrite Hst.
  - rewrite <-Hd. apply map_filter_insert_not'.
    + intros Hnot. by apply Hnot.
    + intros s Hs. fold d in Hfresh. congruence.
  - exact Hd.
Qed.

(** X6: however a deployment ends, every config that is not a scheduled
    query named 'Update Web Vitals Summary' in the location is there
    afterwards as it was before, and no such config is added: other
    scheduled queries, other data sources and other locations are never
    touched. *)
Theorem deploy_keeps_other_configs project_id region ga_property w :
  let r := deploy_scheduled_materialize_query project_id region ga_property w in
  let parent := common_location_path project_id region in
  filter (λ kv : string * StoredConfig,
            ¬ scheduled_query_named "Update Web Vitals Summary" parent kv.2)
         (transfer_configs r.2) =
  filter (λ kv : string * StoredConfig,
            ¬ scheduled_query_named "Update Web Vitals Summary" parent kv.2)
         (transfer_configs w).
Proof. apply deploy_scheduled_materialize_query_others. Qed.

(** X7: however a deployment ends, it leaves at most one scheduled query
    named 'Update Web Vitals Summary' in the location, or no more of them
    than there were: a failing run never adds to them. *)
Theorem deploy_never_adds_duplicate project_id region ga_property w :
  let r := deploy_scheduled_materialize_query project_id region ga_property w in
  let parent := common_location_path project_id region in
  size (filter (λ kv : string * StoredConfig,
                  scheduled_query_named "Update Web Vitals Summary" parent kv.2)
               (transfer_configs r.2)) ≤
  Nat.max 1
    (size (filter (λ kv : string * StoredConfig,
                     scheduled_query_named "Update Web Vitals Summary" parent kv.2)
                  (transfer_configs w))).
Proof.
  intros r parent. subst r.
  destruct (deploy_scheduled_materialize_query_configs project_id region ga_property w)
    as [(_ & Hd & _ & n & Hfresh & Hst)|(_ & Hst)]; rewrite Hst.
  - rewrite (delete_scheduled_query_returns _ project_id region w Hd).
    fold parent.
    rewrite map_filter_insert_True by done.
    rewrite (filter_after_removal
               (λ kv, scheduled_query_named "Update Web Vitals Summary" parent kv.2)).
    rewrite insert_empty, map_size_singleton. lia.
  - etrans; [|apply Nat.le_max_r].
    apply map_subseteq_size, map_filter_subseteq_mono.
    apply delete_scheduled_query_subseteq.
Qed.

(** A deployment that returns, in full. *)
Lemma deploy_scheduled_materialize_query_returns project_id region ga_property w :
  let r := deploy_scheduled_materialize_query project_id region ga_property w in
  let parent := common_location_path project_id region in
  let request := materialize_request project_id region ga_property in
  let created :=
    of_message parent (CreateTransferConfigRequest.transfer_config request) in
  r.1 = Return tt →
  trace r.2 =
    trace w ++
    EvListTransferConfigs (scheduled_queries_of project_id region) ::
    (EvDeleteTransferConfig <$>
       targets "Update Web Vitals Summary"
         (listing (scheduled_queries_of project_id region) (transfer_configs w))) ++
    [EvCreateTransferConfig request] ∧
  ∃ n,
    filter (λ kv : string * StoredConfig,
              scheduled_query_named "Update Web Vitals Summary" parent kv.2)
           (transfer_configs r.2) = {[ n := created ]}.
Proof.
  intros r parent request created Hret. subst r.
  destruct (deploy_scheduled_materialize_query_configs project_id region ga_property w)
    as [(_ & Hd & Htr & n & Hfresh & Hst)|((e & He) & _)]; [|congruence].
  destruct (delete_scheduled_query_run "Update Web Vitals Summary" project_id region w)
    as (called & deleted & Hdtr & _ & _ & _ & [(_ & -> & _)|(e & He)]);
    [|congruence].
  split.
  - rewrite Htr, Hdtr, <-app_assoc. done.
  - exists n. rewrite Hst.
    rewrite (delete_scheduled_query_returns _ project_id region w Hd).
    fold parent.
    rewrite map_filter_insert_True by done.
    rewrite (filter_after_removal
               (λ kv, scheduled_query_named "Update Web Vitals Summary" parent kv.2)).
    apply insert_empty.
Qed.

(** X8: deploying again replaces what the first deployment created: when
    both runs return, the second one deletes exactly the config the first
    one created (one delete call, for its name) and creates its own, so
    that the one scheduled query left carries the query of the second run;
    the other configs are as they were before the first run. *)
Theorem deploy_twice_replaces project_id region first_property second_property w :
  let first :=
    deploy_scheduled_materialize_query project_id region first_property w in
  let second :=
    deploy_scheduled_materialize_query project_id region second_property first.2 in
  let parent := common_location_path project_id region in
  let created ga_property :=
    of_message parent
      (CreateTransferConfigRequest.transfer_config
         (materialize_request project_id region ga_property)) in
  first.1 = Return tt →
  second.1 = Return tt →
  ∃ n1 n2,
    filter (λ kv : string * StoredConfig,
              scheduled_query_named "Update Web Vitals Summary" parent kv.2)
           (transfer_configs first.2) = {[ n1 := created first_property ]} ∧
    trace second.2 =
      trace first.2 ++
      [ EvListTransferConfigs (scheduled_queries_of project_id region);
        EvDeleteTransferConfig n1;
        EvCreateTransferConfig
          (materialize_request project_id region second_property) ] ∧
    filter (λ kv : string * StoredConfig,
              scheduled_query_named "Update Web Vitals Summary" parent kv.2)
           (transfer_configs second.2) = {[ n2 := created second_property ]} ∧
    filter (λ kv : string * StoredConfig,
              ¬ scheduled_query_named "Update Web Vitals Summary" parent kv.2)
           (transfer_configs second.2) =
    filter (λ kv : string * StoredConfig,
              ¬ scheduled_query_named "Update Web Vitals Summary" parent kv.2)
           (transfer_configs w).
Proof.
  intros first second parent created Hfirst Hsecond.
  destruct (deploy_scheduled_materialize_query_returns
              project_id region first_property w Hfirst) as (_ & n1 & Hone).
  destruct (deploy_scheduled_materialize_query_returns
              project_id region second_property first.2 Hsecond)
    as (Htr & n2 & Htwo).
  fold first in Hone. fold second parent in Htr, Htwo. fold parent in Hone.
  exists n1, n2. split_and!; [exact Hone| |exact Htwo|].
  - rewrite Htr.
    assert (Htargets :
      targets "Update Web Vitals Summary"
        (listing (scheduled_queries_of project_id region) (transfer_configs first.2)) =
      [n1]).
    { apply Permutation_singleton_r.
      rewrite targets_listing_matching. fold parent. rewrite Hone.
      by rewrite map_to_list_singleton. }
    by rewrite Htargets.
  - etrans; [apply deploy_scheduled_materialize_query_others|].
    apply deploy_scheduled_materialize_query_others.
Qed.

(** ** main: what it asks, in what order, and what it deploys *)

Ltac keeps_primitive :=
  intros w; unfold keeps, google_auth_default, os_environ, input, execute,
    list_transfer_configs, delete_transfer_config, create_transfer_config,
    transfer_call, bind, log; simpl;
  repeat case_match; done.

Lemma keeps_stdin_main_project_id : steps (keeps stdin) main_project_id.
Proof.
  unfold main_project_id. steps_go; [keeps_primitive|].
  destruct (truthy_str _); steps_go. keeps_primitive.
Qed.

Lemma keeps_pages_main_project_id : steps (keeps compute_pages) main_project_id.
Proof.
  unfold main_project_id. steps_go; [keeps_primitive|].
  destruct (truthy_str _); steps_go. keeps_primitive.
Qed.

Lemma keeps_stdin_deploy project_id region ga_property :
  steps (keeps stdin)
    (deploy_scheduled_materialize_query project_id region ga_property).
Proof.
  unfold deploy_scheduled_materialize_query, delete_scheduled_query. steps_go.
  - keeps_primitive.
  - case_decide; steps_go. keeps_primitive.
  - keeps_primitive.
Qed.

Lemma keeps_pages_deploy project_id region ga_property :
  steps (keeps compute_pages)
    (deploy_scheduled_materialize_query project_id region ga_property).
Proof.
  unfold deploy_scheduled_materialize_query, delete_scheduled_query. steps_go.
  - keeps_primitive.
  - case_decide; steps_go. keeps_primitive.
  - keeps_primitive.
Qed.

(** The three stubs after the deployment change nothing. *)
Lemma stubs_after deploy w :
  (deploy ;;; deploy_p75_procedure ;;; deploy_cloudrun_alerter ;;;
   create_cloudrun_trigger) w = deploy w.
Proof.
  unfold bind, deploy_p75_procedure, deploy_cloudrun_alerter,
    create_cloudrun_trigger, ret.
  by destruct (deploy w) as [[[]|e|] w'].
Qed.

(** X9: when every option [main] reads is given on the command line (a
    region, a property id other than 0, the four settings of the alerter,
    none of them empty), [main] is the deployment for these values and
    nothing else: it prompts for nothing, reads nothing from standard input
    and makes no call to the Compute API; the region is taken as given,
    'list' included. *)
Theorem main_with_all_options
    fuel args w credentials project_id w1 region ga_property :
  main_project_id w = (Return (credentials, project_id), w1) →
  truthy_str (Namespace.region args) = Some region →
  truthy_int (Namespace.ga_property args) = Some ga_property →
  is_Some (truthy_str (Namespace.email_server args)) →
  is_Some (truthy_str (Namespace.email_user args)) →
  is_Some (truthy_str (Namespace.email_password args)) →
  is_Some (truthy_str (Namespace.alert_recipients args)) →
  let r := main fuel args w in
  r = deploy_scheduled_materialize_query project_id region (Int ga_property) w1 ∧
  stdin r.2 = stdin w ∧
  compute_pages r.2 = compute_pages w ∧
  ∃ evs, trace r.2 = trace w ++ evs ∧
         Forall (λ e, is_prompt e = false ∧ ∀ request, e ≠ EvRegionsList request) evs.
Proof.
  intros Hproject Hregion Hga [s1 H1] [s2 H2] [s3 H3] [s4 H4] r.
  assert (Hr : r = deploy_scheduled_materialize_query project_id region
                     (Int ga_property) w1).
  { subst r. unfold main. rewrite (bind_Return _ _ _ _ _ Hproject). simpl.
    unfold main_steps, main_region, main_ga_property, main_email, input_if_not.
    rewrite Hregion, Hga, H1, H2, H3, H4.
    etrans; [|apply (stubs_after
      (deploy_scheduled_materialize_query project_id region (Int ga_property)) w1)].
    reflexivity. }
  assert (K1 := keeps_stdin_main_project_id w).
  assert (K2 := keeps_pages_main_project_id w).
  assert (K3 := keeps_stdin_deploy project_id region (Int ga_property) w1).
  assert (K4 := keeps_pages_deploy project_id region (Int ga_property) w1).
  rewrite Hproject in K1, K2. unfold keeps in *. simpl in K1, K2.
  split_and!; [exact Hr | rewrite Hr; congruence | rewrite Hr; congruence |].
  pose (Q := λ e, is_prompt e = false ∧ ∀ request, e ≠ EvRegionsList request).
  assert (E1 : emits Q w w1).
  { assert (Hs := emits_main_project_id Q). unfold steps in Hs.
    specialize (Hs ltac:(done) ltac:(done) w). by rewrite Hproject in Hs. }
  assert (E2 := emits_deploy_scheduled_materialize_query Q project_id region
                  (Int ga_property) ltac:(done) ltac:(done) ltac:(done) w1).
  rewrite Hr. exact (transitivity E1 E2).
Qed.

Lemma raises_only_ret E {A} (a : A) : raises_only E (ret a).
Proof. by intros w e. Qed.

Lemma raises_only_raise (E : exn → Prop) {A} e : E e → raises_only E (@raise A e).
Proof. intros HE w e' [= <-]. done. Qed.

Lemma raises_only_out_of_fuel E {A} : raises_only E (@out_of_fuel A).
Proof. by intros w e. Qed.

Lemma raises_only_bind E {A B} (m : M A) (k : A → M B) :
  raises_only E m → (∀ a, raises_only E (k a)) → raises_only E (bind m k).
Proof.
  intros Hm Hk w e. unfold bind. specialize (Hm w).
  destruct (m w) as [[a|e'|] w']; simpl in *; [apply Hk | | done].
  intros [= <-]. by apply Hm.
Qed.

Lemma raises_only_for_each E {A} (l : list A) (body : A → M unit) :
  (∀ x, raises_only E (body x)) → raises_only E (for_each l body).
Proof.
  intros Hbody. induction l as [|x l IH]; simpl; [apply raises_only_ret|].
  apply raises_only_bind; [apply Hbody | intros _; exact IH].
Qed.

Lemma raises_only_log E e : raises_only E (log e).
Proof. by intros w e'. Qed.

Lemma raises_only_google_auth_default (E : exn → Prop) :
  E DefaultCredentialsError → raises_only E google_auth_default.
Proof.
  intros HE w e. unfold google_auth_default, bind, log. simpl.
  case_match; simpl; [done|]. by intros [= <-].
Qed.

Lemma raises_only_os_environ (E : exn → Prop) key :
  E (KeyError key) → raises_only E (os_environ key).
Proof.
  intros HE w e. unfold os_environ, bind, log. simpl.
  case_match; simpl; [done|]. by intros [= <-].
Qed.

Lemma raises_only_input (E : exn → Prop) prompt :
  E EOFError → raises_only E (input prompt).
Proof.
  intros HE w e. unfold input, bind, log. simpl.
  case_match; simpl; [|done]. by intros [= <-].
Qed.

Lemma raises_only_execute (E : exn → Prop) request :
  E HttpError → raises_only E (execute request).
Proof.
  intros HE w e. unfold execute, bind, log. simpl.
  repeat case_match; simpl; try done; by intros [= <-].
Qed.

Lemma raises_only_getitem (E : exn → Prop) {A} key (o : option A) :
  E (KeyError key) → raises_only E (getitem key o).
Proof.
  intros HE. destruct o; [apply raises_only_ret | by apply raises_only_raise].
Qed.

Lemma raises_only_transfer_call (E : exn → Prop) {A} ev (op : M A) :
  E GoogleAPICallError → raises_only E op → raises_only E (transfer_call ev op).
Proof.
  intros HE Hop w e. unfold transfer_call, bind, log. simpl.
  destruct (transfer_faults w) as [|[] rest]; simpl; [apply Hop | | apply Hop].
  by intros [= <-].
Qed.

Lemma raises_only_get_gcp_regions (E : exn → Prop) fuel credentials project_id :
  E HttpError → E (KeyError "items") → E missing_project →
  raises_only E (get_gcp_regions fuel credentials project_id).
Proof.
  intros Hhttp Hkey Htype w e. rewrite get_gcp_regions_unfold.
  destruct fuel as [|fuel]; [done|].
  rewrite get_gcp_regions_loop_turn. cbn zeta.
  repeat case_match; simpl; intros [= <-]; done.
Qed.

Lemma raises_only_main_region_loop (E : exn → Prop) fuel credentials project_id :
  ∀ region,
  E HttpError → E (KeyError "items") → E missing_project → E EOFError →
  raises_only E (main_region_loop fuel credentials project_id region).
Proof.
  induction fuel as [|fuel IH]; intros region Hhttp Hkey Htype Heof; simpl;
    destruct (decide (region = "list"));
    try apply raises_only_ret; try apply raises_only_out_of_fuel.
  apply raises_only_bind;
    [by apply raises_only_get_gcp_regions | intros region_list].
  apply raises_only_bind; [apply raises_only_log | intros _].
  apply raises_only_bind; [by apply raises_only_input | intros answer].
  by apply IH.
Qed.

Lemma keeps_main_ga_property args :
  steps (keeps transfer_configs) (main_ga_property args).
Proof.
  unfold main_ga_property. destruct (truthy_int _); steps_go.
  - apply keeps_input.
  - destruct (isdigit _); steps_go.
Qed.

Lemma keeps_main_email args : steps (keeps transfer_configs) (main_email args).
Proof.
  unfold main_email, input_if_not.
  steps_go; destruct (truthy_str _); steps_go; apply keeps_input.
Qed.

Lemma early_main_project_id : early main_project_id.
Proof.
  split_and!.
  - by apply emits_main_project_id.
  - apply keeps_main_project_id.
  - unfold main_project_id. apply raises_only_bind.
    + apply raises_only_google_auth_default. by intros [|].
    + intros found. destruct (truthy_str _); [apply raises_only_ret|].
      apply raises_only_bind; [|intros ?; apply raises_only_ret].
      apply raises_only_os_environ. by intros [|].
Qed.

Lemma early_main_region fuel credentials project_id args :
  early (main_region fuel credentials project_id args).
Proof.
  split_and!.
  - apply emits_main_region. by intros [].
  - apply keeps_main_region.
  - unfold main_region. destruct (truthy_str _); [apply raises_only_ret|].
    apply raises_only_bind.
    + apply raises_only_input. by intros [|].
    + intros answer. apply raises_only_main_region_loop; by intros [|].
Qed.

Lemma early_main_ga_property args : early (main_ga_property args).
Proof.
  split_and!.
  - by apply emits_main_ga_property.
  - apply keeps_main_ga_property.
  - unfold main_ga_property. destruct (truthy_int _); [apply raises_only_ret|].
    apply raises_only_bind; [apply raises_only_input; by intros [|]|].
    intros answer. destruct (isdigit _); [apply raises_only_ret|].
    apply raises_only_raise. by intros [|].
Qed.

Lemma early_main_email args : early (main_email args).
Proof.
  split_and!.
  - by apply emits_main_email.
  - apply keeps_main_email.
  - unfold main_email, input_if_not.
    repeat (apply raises_only_bind;
            [destruct (truthy_str _);
             [apply raises_only_ret
             |apply raises_only_bind;
              [apply raises_only_input; by intros [|]
              |intros ?; apply raises_only_ret]]
            |intros ?]).
    apply raises_only_ret.
Qed.

Lemma raises_only_deploy project_id region ga_property :
  raises_only transfer_error
    (deploy_scheduled_materialize_query project_id region ga_property).
Proof.
  unfold deploy_scheduled_materialize_query, delete_scheduled_query.
  apply raises_only_bind.
  - apply raises_only_bind.
    + apply raises_only_transfer_call; [by left | by intros w e].
    + intros configs. apply raises_only_for_each. intros config.
      case_decide; [|apply raises_only_ret].
      apply raises_only_transfer_call; [by left|].
      intros w e. case_match; simpl; [done|]. intros [= <-]. by right.
  - intros _. apply raises_only_bind; [|intros ?; apply raises_only_ret].
    apply raises_only_transfer_call; [by left | by intros w e].
Qed.

Lemma late_bind {A B} (m : M A) (k : A → M B) :
  early m → (∀ a, late (k a)) → late (bind m k).
Proof.
  intros (Hem & Hkeep & Hraise) Hk w. unfold bind.
  specialize (Hem w). specialize (Hkeep w). specialize (Hraise w).
  unfold keeps in Hkeep.
  destruct (m w) as [[a|e|] w1]; simpl in *.
  - destruct (Hk a w1) as [(pre & post & Htr & Hpre & Hpost) Hearly].
    destruct Hem as (evs & Hevs & HNT).
    split.
    + exists (evs ++ pre), post. split_and!; [|by apply Forall_app|done].
      by rewrite Htr, Hevs, <-!app_assoc.
    + intros Hstop. destruct (Hearly Hstop) as [Hst Hemits]. split; [congruence|].
      by etrans; [exists evs|].
  - split.
    + destruct Hem as (evs & Hevs & HNT). exists evs, [].
      by rewrite app_nil_r.
    + done.
  - split.
    + destruct Hem as (evs & Hevs & HNT). exists evs, [].
      by rewrite app_nil_r.
    + done.
Qed.

Lemma late_deploy project_id region ga_property :
  late (deploy_scheduled_materialize_query project_id region ga_property ;;;
        deploy_p75_procedure ;;; deploy_cloudrun_alerter ;;; create_cloudrun_trigger).
Proof.
  intros w. rewrite stubs_after.
  assert (Hem := emits_deploy_scheduled_materialize_query
                   (λ e, is_transfer_call e = true) project_id region ga_property
                   ltac:(done) ltac:(done) ltac:(done) w).
  assert (Hends := ends_deploy_scheduled_materialize_query
                     project_id region ga_property w).
  assert (Hraise := raises_only_deploy project_id region ga_property w).
  destruct (deploy_scheduled_materialize_query project_id region ga_property w)
    as [[[]|e|] w']; simpl in *.
  - split; [|done]. destruct Hem as (evs & Hevs & HT). by exists [], evs.
  - split.
    + destruct Hem as (evs & Hevs & HT). by exists [], evs.
    + intros Hnot. exfalso. by apply Hnot, Hraise.
  - done.
Qed.

(** X10: in every run of [main], all the prompts, prints and Compute calls
    come before the first Data Transfer call.  A run that ends in anything
    but a return or an error of the Data Transfer client (a missing
    GOOGLE_CLOUD_PROJECT, end of input at a prompt, a property id that is
    not a number, a failed region listing, missing credentials) has made no
    Data Transfer call and has changed no transfer config. *)
Theorem main_interacts_before_deploying fuel args w :
  let r := main fuel args w in
  phased w r.2 ∧
  (stopped_early r.1 →
   transfer_configs r.2 = transfer_configs w ∧
   emits (λ e, is_transfer_call e = false) w r.2).
Proof.
  apply (late_bind main_project_id). { apply early_main_project_id. }
  intros found. unfold main_steps.
  apply late_bind. { apply early_main_region. }
  intros region. apply late_bind. { apply early_main_ga_property. }
  intros ga_property. apply late_bind. { apply early_main_email. }
  intros _. apply late_deploy.
Qed.

Lemma typed_suffix lines lines' s :
  lines' `suffix_of` lines → typed lines' s → typed lines s.
Proof.
  intros [before ->] (line & Hin & ->). exists line. split; [|done].
  apply elem_of_app. by right.
Qed.

Lemma keeps_stdin_get_gcp_regions fuel credentials project_id :
  steps (keeps stdin) (get_gcp_regions fuel credentials project_id).
Proof.
  intros w. rewrite get_gcp_regions_unfold.
  destruct fuel as [|fuel]; [done|].
  rewrite get_gcp_regions_loop_turn. cbn zeta. by repeat case_match.
Qed.

(** What [input] returns is the first line of standard input, and the rest
    is what is left. *)
Lemma input_returns prompt w line w' :
  input prompt w = (Return line, w') → stdin w = line :: stdin w'.
Proof.
  unfold input, bind, log. simpl.
  destruct (stdin w) as [|first rest] eqn:Hin; simpl; rewrite ?Hin; [done|].
  by intros [= <- <-].
Qed.

(** What the loop at the region prompt returns: the region it was entered
    with, or a later answer; never 'list'. *)
Lemma returns_main_region_loop fuel credentials project_id : ∀ region w a w',
  main_region_loop fuel credentials project_id region w = (Return a, w') →
  a ≠ "list" ∧ (a = region ∨ typed (stdin w) a) ∧ stdin w' `suffix_of` stdin w.
Proof.
  induction fuel as [|fuel IH]; intros region w a w' Hrun; simpl in Hrun;
    destruct (decide (region = "list")) as [->|Hne];
    try (injection Hrun as <- <-; split_and!; [done | by left | done]); try done.
  unfold bind at 1 in Hrun.
  assert (Hkeep := keeps_stdin_get_gcp_regions (S fuel) credentials project_id w).
  destruct (get_gcp_regions (S fuel) credentials project_id w) as [[l|e|] w1];
    [|done|done].
  unfold keeps in Hkeep. simpl in Hkeep.
  unfold print in Hrun. unfold bind at 1 in Hrun. simpl in Hrun.
  unfold bind at 1 in Hrun.
  match type of Hrun with context [input ?p ?w2] =>
    destruct (input p w2) as [[answer|e|] w3] eqn:Hinput; [|done|done] end.
  apply input_returns in Hinput. simpl in Hinput. rewrite Hkeep in Hinput.
  destruct (IH _ _ _ _ Hrun) as (Hlist & Hfrom & Hleft).
  assert (Hsuffix : stdin w3 `suffix_of` stdin w)
    by (rewrite Hinput; by apply suffix_cons_r).
  split_and!; [done | right | by etrans].
  destruct Hfrom as [->|Htyped].
  - exists answer. split; [|done]. rewrite Hinput. by left.
  - by eapply typed_suffix.
Qed.

Lemma returns_main_region fuel credentials project_id args :
  returns_of (λ w, valid_region args (stdin w))
    (main_region fuel credentials project_id args).
Proof.
  intros w a w' Hrun. unfold main_region, valid_region in *.
  destruct (truthy_str (Namespace.region args)) as [region|].
  - injection Hrun as <- <-. by left.
  - right. split; [done|]. unfold bind at 1 in Hrun.
    destruct (input _ w) as [[answer|e|] w1] eqn:Hinput; [|done|done].
    apply input_returns in Hinput.
    destruct (returns_main_region_loop _ _ _ _ _ _ _ Hrun) as (Hlist & Hfrom & _).
    split; [|done]. destruct Hfrom as [->|Htyped].
    + exists answer. split; [|done]. rewrite Hinput. by left.
    + eapply typed_suffix; [|exact Htyped]. rewrite Hinput. by apply suffix_cons_r.
Qed.

Lemma returns_main_ga_property args :
  returns_of (λ w, valid_property args (stdin w)) (main_ga_property args).
Proof.
  intros w a w' Hrun. unfold main_ga_property in Hrun.
  destruct (truthy_int (Namespace.ga_property args)) as [n|] eqn:Hflag.
  - by injection Hrun as <- <-.
  - unfold bind at 1 in Hrun.
    destruct (input _ w) as [[answer|e|] w1] eqn:Hinput; [|done|done].
    apply input_returns in Hinput.
    destruct (isdigit (strip answer)) eqn:Hdigits; [|done].
    injection Hrun as <- <-. split_and!; [done| |done].
    exists answer. split; [|done]. rewrite Hinput. by left.
Qed.

(** When [main_region] returns, what is left of standard input is an end of
    what there was. *)
Lemma main_region_reads fuel credentials project_id args w a w' :
  main_region fuel credentials project_id args w = (Return a, w') →
  stdin w' `suffix_of` stdin w.
Proof.
  intros Hrun. unfold main_region in Hrun.
  destruct (truthy_str (Namespace.region args)) as [region|].
  - by injection Hrun as <- <-.
  - unfold bind at 1 in Hrun.
    destruct (input _ w) as [[answer|e|] w1] eqn:Hinput; [|done|done].
    apply input_returns in Hinput.
    destruct (returns_main_region_loop _ _ _ _ _ _ _ Hrun) as (_ & _ & Hleft).
    etrans; [exact Hleft|]. rewrite Hinput. by apply suffix_cons_r.
Qed.

(** With a bind, what the first part returns can be used for the second,
    and related to the world the first part started in. *)
Lemma emits_bind_returns_of (P : event → Prop) {A B} (Q : World → A → Prop)
    (m : M A) (k : A → M B) w :
  returns_of Q m →
  emits P w (m w).2 →
  (∀ a w1, m w = (Return a, w1) → Q w a → emits P w1 (k a w1).2) →
  emits P w (bind m k w).2.
Proof.
  intros HQ Hm Hk. unfold bind. specialize (HQ w).
  destruct (m w) as [[a|e|] w1] eqn:Hrun; simpl in *; try done.
  etrans; [exact Hm|]. apply Hk; [done|]. by eapply HQ.
Qed.

Lemma main_steps_validated fuel credentials project_id args lines w :
  stdin w `suffix_of` lines →
  emits (deploys_validated args lines) w
    (main_steps fuel credentials project_id args w).2.
Proof.
  intros Hw. unfold main_steps.
  apply (emits_bind_returns_of _ (λ w, valid_region args (stdin w)));
    [apply returns_main_region | apply emits_main_region; by intros [] |].
  intros region w1 Hrun1 Hregion.
  assert (Hw1 : stdin w1 `suffix_of` lines)
    by (etrans; [by eapply main_region_reads | done]).
  apply (emits_bind_returns_of _ (λ w, valid_property args (stdin w)));
    [apply returns_main_ga_property | by apply emits_main_ga_property |].
  intros ga_property w2 Hrun2 Hga.
  assert (Hregion' : valid_region args lines region).
  { destruct Hregion as [?|(? & ? & ?)]; [by left|right].
    split_and!; [done| |done]. by apply (typed_suffix lines (stdin w)). }
  assert (Hga' : valid_property args lines ga_property).
  { destruct ga_property as [n|s]; [done|]. destruct Hga as (? & ? & ?).
    split_and!; [done| |done]. by apply (typed_suffix lines (stdin w1)). }
  clear Hrun2.
  assert (Hs : steps (emits (deploys_validated args lines))
    (main_email args ;;;
     deploy_scheduled_materialize_query project_id region ga_property ;;;
     deploy_p75_procedure ;;; deploy_cloudrun_alerter ;;; create_cloudrun_trigger)).
  { apply steps_bind; [apply _ | by apply emits_main_email | intros _].
    unfold deploy_p75_procedure, deploy_cloudrun_alerter, create_cloudrun_trigger.
    steps_go.
    apply emits_deploy_scheduled_materialize_query; simpl; eauto 6. }
  apply Hs.
Qed.

(** X11: every Data Transfer request of every run of [main] is for a
    location and a property id that [main] has let through: the region is
    the one of the command line, or else a line of standard input, stripped,
    that is not 'list'; the property id in the query is the non-zero number
    of the command line, or else a line of standard input, stripped, that
    passed [isdigit].  No query is ever deployed for a property id that
    failed the check. *)
Theorem main_deploys_validated fuel args w :
  ∃ evs, trace (main fuel args w).2 = trace w ++ evs ∧
         Forall (deploys_validated args (stdin w)) evs.
Proof.
  change (emits (deploys_validated args (stdin w)) w (main fuel args w).2).
  unfold main, bind at 1.
  assert (Hem := emits_main_project_id (deploys_validated args (stdin w))
                   ltac:(done) ltac:(done) w).
  assert (Hkeep := keeps_stdin_main_project_id w). unfold keeps in Hkeep.
  destruct (main_project_id w) as [[found|e|] w1]; simpl in *; [|done|done].
  etrans; [exact Hem|]. apply main_steps_validated. by rewrite Hkeep.
Qed.

(** ** main: the dialogue at the region prompt *)

Ltac world_eq w :=
  destruct w; unfold set_stdin, set_compute_pages, set_trace; simpl in *; subst;
  f_equal; rewrite <-?app_assoc; simpl; rewrite ?app_nil_r, <-?app_assoc; done.

Lemma main_region_loop_answer fuel credentials project_id region w :
  region ≠ "list" →
  main_region_loop fuel credentials project_id region w = (Return region, w).
Proof. intros Hne. destruct fuel; simpl; by rewrite decide_False. Qed.

Lemma input_run prompt w line rest :
  stdin w = line :: rest →
  input prompt w =
  (Return line, set_stdin rest (set_trace (trace w ++ [EvInput prompt]) w)).
Proof. intros Hin. unfold input, bind, log. simpl. by rewrite Hin. Qed.

(** The loop entered on the answer 'list', with the answers to come on
    standard input and a one-page listing per 'list' in the script. *)
Lemma main_region_loop_dialogue credentials project_id listings :
  ∀ fuel w more answer rest_in rest_pages,
  stdin w = more ++ answer :: rest_in →
  Forall (λ line, strip line = "list") more →
  strip answer ≠ "list" →
  length listings = S (length more) →
  Forall (λ page, is_single_page page = true) listings →
  compute_pages w = (Some <$> listings) ++ rest_pages →
  length listings ≤ fuel →
  main_region_loop fuel credentials project_id "list" w =
  (Return (strip answer),
   set_stdin rest_in
     (set_compute_pages rest_pages
        (set_trace (trace w ++ region_dialogue project_id listings) w))).
Proof.
  induction listings as [|page listings IH];
    intros fuel w more answer rest_in rest_pages Hin Hlists Hanswer Hlen Hall
      Hscript Hfuel; [done|].
  destruct fuel as [|fuel]; [simpl in Hfuel; lia|].
  apply Forall_cons in Hall as [Hpage Hall].
  apply andb_true_iff in Hpage as [Hitems Htoken].
  apply bool_decide_eq_true in Hitems as [its Hitems].
  apply bool_decide_eq_true in Htoken.
  rewrite fmap_cons in Hscript. simpl in Hscript, Hfuel.
  assert (Hlisting :
    get_gcp_regions (S fuel) credentials project_id w =
    (Return (page_names page),
     set_compute_pages ((Some <$> listings) ++ rest_pages)
       (set_trace (trace w ++ [EvRegionsList (regions_list_project project_id)]) w))).
  { rewrite get_gcp_regions_unfold, get_gcp_regions_loop_turn. cbn zeta.
    rewrite Hscript, Hitems, Htoken. unfold page_names. by rewrite Hitems. }
  cbn [main_region_loop]. rewrite decide_True by done.
  rewrite (bind_Return _ _ _ _ _ Hlisting).
  unfold print.
  match goal with |- context [log ?e] =>
    rewrite (bind_Return (log e) _ _ tt _ eq_refl) end.
  destruct more as [|line more].
  - destruct listings as [|? ?]; [|simpl in Hlen; lia].
    simpl in Hin.
    match goal with |- bind (input ?p) _ ?w1 = _ =>
      rewrite (bind_Return _ _ _ _ _ (input_run p w1 answer rest_in Hin)) end.
    rewrite main_region_loop_answer by done.
    f_equal. world_eq w.
  - simpl in Hin. apply Forall_cons in Hlists as [Hline Hlists].
    match goal with |- bind (input ?p) _ ?w1 = _ =>
      rewrite (bind_Return _ _ _ _ _
                 (input_run p w1 line (more ++ answer :: rest_in) Hin)) end.
    rewrite Hline.
    rewrite (IH fuel _ more answer rest_in rest_pages);
      [|done|done|done|simpl in Hlen; lia|done|done|lia].
    f_equal. world_eq w.
Qed.

(** X12: at the region prompt, an operator who answers 'list' some number of
    times (what [strip] removes around it does not count) and then something
    else gets, for each 'list', one request for the regions of the project,
    the names of the page that answers it printed one per line, and a new
    prompt, and [main] goes on with the last answer, stripped.  This holds
    when each listing comes in one page (with 'items', without
    'nextPageToken'); the loop reads no line and fetches no page beyond
    those. *)
Theorem main_region_dialogue
    fuel credentials project_id args w lists answer rest_in listings rest_pages :
  truthy_str (Namespace.region args) = None →
  stdin w = lists ++ answer :: rest_in →
  Forall (λ line, strip line = "list") lists →
  strip answer ≠ "list" →
  length listings = length lists →
  Forall (λ page, is_single_page page = true) listings →
  compute_pages w = (Some <$> listings) ++ rest_pages →
  length listings ≤ fuel →
  main_region fuel credentials project_id args w =
  (Return (strip answer),
   set_stdin rest_in
     (set_compute_pages rest_pages
        (set_trace
           (trace w ++
            EvInput "Which region should be deployed to (type list for a list)? " ::
            region_dialogue project_id listings)
           w))).
Proof.
  intros Hflag Hin Hlists Hanswer Hlen Hall Hscript Hfuel.
  unfold main_region. rewrite Hflag.
  destruct lists as [|line lists].
  - destruct listings as [|? ?]; [|done]. simpl in Hin.
    rewrite (bind_Return _ _ _ _ _ (input_run _ w answer rest_in Hin)).
    rewrite main_region_loop_answer by done.
    f_equal. world_eq w.
  - simpl in Hin. apply Forall_cons in Hlists as [Hline Hlists].
    rewrite (bind_Return _ _ _ _ _
               (input_run _ w line (lists ++ answer :: rest_in) Hin)).
    rewrite Hline.
    rewrite (main_region_loop_dialogue credentials project_id listings fuel _
               lists answer rest_in rest_pages);
      [|done|done|done|simpl in Hlen; lia|done|done|done].
    f_equal. world_eq w.
Qed.

End script.

(** * The theorems on concrete worlds *)

(** The runs of [main] below are on ASCII text, where [str.strip] and
    [str.isdigit] are [ascii_strip] and [ascii_isdigit]. *)

Ltac decide_closed :=
  first [ by repeat (constructor; try (vm_compute; reflexivity))
        | let H := fresh in intros H; vm_compute in H; discriminate H ].

(** Every line typed in the example worlds is ASCII text. *)
Example example_worlds_type_ascii :
  forallb (λ w, forallb is_ascii (stdin w))
    [ example_world; example_world_two_pages; example_world_bad_property;
      example_world_failing_create; example_world_failing_delete;
      example_world_no_project; example_world_unnamed; example_world_bad_answer;
      example_world_empty_page ] = true.
Proof. reflexivity. Qed.

Lemma delete_scheduled_query_exact_witness :
  (delete_scheduled_query "Update Web Vitals Summary" "proj" "us" example_world).1 =
    Return tt ∧
  dom (transfer_configs
         (delete_scheduled_query "Update Web Vitals Summary" "proj" "us"
            example_world).2) =
    {[ "projects/proj/locations/us/transferConfigs/b";
       "projects/proj/locations/us/transferConfigs/c";
       "projects/proj/locations/eu/transferConfigs/d" ]} ∧
  transfer_configs
    (delete_scheduled_query "Update Web Vitals Summary" "proj" "us" example_world).2 =
  filter (λ kv : string * StoredConfig,
            ¬ scheduled_query_named "Update Web Vitals Summary"
                (common_location_path "proj" "us") kv.2)
         (transfer_configs example_world).
Proof.
  split; [vm_compute; reflexivity|]. split; [vm_compute; reflexivity|].
  apply (proj1 (proj2 (delete_scheduled_query_exact
                         "Update Web Vitals Summary" "proj" "us" example_world))).
  vm_compute. reflexivity.
Defined.

Lemma delete_scheduled_query_other_sources_witness :
  (delete_scheduled_query "Update Web Vitals Summary" "proj" "us"
     example_world_failing_delete).1 = Raise GoogleAPICallError ∧
  filter (λ kv : string * StoredConfig, stored_data_source_id kv.2 ≠ "scheduled_query")
    (transfer_configs
       (delete_scheduled_query "Update Web Vitals Summary" "proj" "us"
          example_world_failing_delete).2) =
  filter (λ kv : string * StoredConfig, stored_data_source_id kv.2 ≠ "scheduled_query")
    (transfer_configs example_world_failing_delete).
Proof.
  split; [vm_compute; reflexivity|].
  apply (proj2 (delete_scheduled_query_other_sources
                  "Update Web Vitals Summary" "proj" "us" example_world_failing_delete)).
Defined.

Lemma deploy_create_request_witness :
  trace (deploy_scheduled_materialize_query "proj" "us" (Str "123") example_world).2 =
  trace (delete_scheduled_query "Update Web Vitals Summary" "proj" "us" example_world).2 ++
  [EvCreateTransferConfig (materialize_request "proj" "us" (Str "123"))].
Proof.
  apply (proj1 (deploy_create_request "proj" "us" (Str "123") example_world)).
  vm_compute. reflexivity.
Defined.

Lemma deploy_leaves_exactly_one_witness :
  (deploy_scheduled_materialize_query "proj" "us" (Int 123) example_world).1 =
    Return tt ∧
  size (filter (λ kv : string * StoredConfig,
                  scheduled_query_named "Update Web Vitals Summary"
                    (common_location_path "proj" "us") kv.2)
               (transfer_configs
                  (deploy_scheduled_materialize_query "proj" "us" (Int 123)
                     example_world).2)) = 1.
Proof.
  assert (H : (deploy_scheduled_materialize_query "proj" "us" (Int 123)
                 example_world).1 = Return tt) by (vm_compute; reflexivity).
  split; [exact H|].
  apply (proj1 (proj2 (deploy_leaves_exactly_one "proj" "us" (Int 123) example_world H))).
Defined.

Lemma deploy_not_atomic_witness :
  (deploy_scheduled_materialize_query "proj" "us" (Int 123)
     example_world_failing_create).1 = Raise GoogleAPICallError ∧
  filter (λ kv : string * StoredConfig,
            scheduled_query_named "Update Web Vitals Summary"
              (common_location_path "proj" "us") kv.2)
         (transfer_configs
            (deploy_scheduled_materialize_query "proj" "us" (Int 123)
               example_world_failing_create).2) = ∅.
Proof.
  assert (Hd : (delete_scheduled_query "Update Web Vitals Summary" "proj" "us"
                  example_world_failing_create).1 = Return tt)
    by (vm_compute; reflexivity).
  assert (Hc : (create_transfer_config (materialize_request "proj" "us" (Int 123))
                  (delete_scheduled_query "Update Web Vitals Summary" "proj" "us"
                     example_world_failing_create).2).1 = Raise GoogleAPICallError)
    by (vm_compute; reflexivity).
  pose proof (deploy_not_atomic "proj" "us" (Int 123) example_world_failing_create
                GoogleAPICallError Hd Hc) as (Hr & _ & _ & Hnone).
  split; [exact Hr | exact Hnone].
Defined.

Lemma get_gcp_regions_raises_at_token_witness :
  get_gcp_regions 2 example_credentials "proj" example_world_two_pages =
  (Raise missing_project,
   set_compute_pages [Some example_page_second]
     (set_trace [EvRegionsList (regions_list_project "proj")] example_world_two_pages)).
Proof.
  apply (proj1 (get_gcp_regions_raises_at_token 2 example_credentials "proj"
                  example_world_two_pages)
           example_page_first [Some example_page_second]
           [ {[ "name" := "us-east1" ]}; {[ "name" := "us-west1" ]} ] "page-2");
    [reflexivity | reflexivity | reflexivity | lia].
Defined.

(** The same at the region prompt: the operator answers 'list', the listing
    has a second page, and [main] ends in the TypeError of line 47 without
    printing a region. *)
Example main_list_on_two_pages :
  forallb is_ascii (stdin example_world_two_pages) = true ∧
  (main ascii_strip ascii_isdigit 3 example_args example_world_two_pages).1 =
    Raise missing_project ∧
  trace (main ascii_strip ascii_isdigit 3 example_args example_world_two_pages).2 =
    [ EvAuthDefault; EvEnviron "GOOGLE_CLOUD_PROJECT";
      EvInput "Which region should be deployed to (type list for a list)? ";
      EvRegionsList (regions_list_project "proj") ].
Proof. split_and!; vm_compute; reflexivity. Qed.

Lemma get_gcp_regions_names_witness :
  ∃ pages,
    compute_pages example_world_unnamed = (Some <$> pages) ++ [] ∧
    is_listing pages = true ∧
    ["us-east1"] =
      omap region_name (concat ((λ page, default [] (items page)) <$> pages)).
Proof.
  destruct (get_gcp_regions_names 1 example_credentials "proj" example_world_unnamed
              ["us-east1"]
              (get_gcp_regions 1 example_credentials "proj" example_world_unnamed).2)
    as (pages & Hscript & Hl & Hnames & _); [vm_compute; reflexivity|].
  exists pages. split_and!; [exact Hscript | exact Hl | exact Hnames].
Defined.

(** C6 as stated fails: of three items named 'us-east1', '' and not at all,
    one name is returned; the item named '' is dropped. *)
Lemma get_gcp_regions_drops_unnamed :
  (get_gcp_regions 1 example_credentials "proj" example_world_unnamed).1 =
    Return ["us-east1"] ∧
  compute_pages example_world_unnamed =
    [Some (mkRegionList
             (Some [ {[ "name" := "us-east1" ]}; {[ "name" := "" ]};
                     {[ "description" := "no name" ]} ]) None)] ∧
  (λ region : Region, region !! "name") <$>
    [ ({[ "name" := "us-east1" ]} : Region); {[ "name" := "" ]};
      {[ "description" := "no name" ]} ] =
    [Some "us-east1"; Some ""; None] ∧
  ["us-east1"] ≠ ["us-east1"; ""].
Proof.
  split_and!; [vm_compute; reflexivity | reflexivity | vm_compute; reflexivity | done].
Qed.

Lemma main_rejects_non_numeric_property_witness :
  forallb is_ascii (stdin example_world_bad_property) = true ∧
  (main ascii_strip ascii_isdigit 3 example_args example_world_bad_property).1 =
    Raise (SystemExit "Only GA4 properties are supported at this time.") ∧
  transfer_configs
    (main ascii_strip ascii_isdigit 3 example_args example_world_bad_property).2 =
    transfer_configs example_world_bad_property.
Proof.
  split; [reflexivity|].
  pose proof (main_rejects_non_numeric_property ascii_strip ascii_isdigit
    3 example_args example_world_bad_property
    example_credentials "proj"
    (main_project_id example_world_bad_property).2
    "us"
    (main_region ascii_strip 3 example_credentials "proj" example_args
       (main_project_id example_world_bad_property).2).2
    "GA4-123" []) as H.
  destruct H as (Hr & Hst & _);
    [vm_compute; reflexivity | vm_compute; reflexivity | reflexivity
    | vm_compute; reflexivity | vm_compute; reflexivity |].
  split; [exact Hr | exact Hst].
Defined.

(** C7 as stated fails: the operator answers 'list' at the region prompt,
    gets the one-page listing, answers a region and then a property id that
    is not a number; [main] exits with SystemExit after a call of the
    Compute API. *)
Lemma main_lists_regions_before_exit :
  forallb is_ascii (stdin example_world_bad_property) = true ∧
  compute_pages example_world_bad_property = [Some example_page] ∧
  nextPageToken example_page = None ∧
  (main ascii_strip ascii_isdigit 3 example_args example_world_bad_property).1 =
    Raise (SystemExit "Only GA4 properties are supported at this time.") ∧
  ascii_isdigit (ascii_strip "GA4-123") = false ∧
  trace (main ascii_strip ascii_isdigit 3 example_args example_world_bad_property).2 =
    [ EvAuthDefault; EvEnviron "GOOGLE_CLOUD_PROJECT";
      EvInput "Which region should be deployed to (type list for a list)? ";
      EvRegionsList (regions_list_project "proj");
      EvPrint ("us-east1" +:+ newline +:+ "us-west1" +:+ newline +:+
               "europe-west1" +:+ newline +:+ "us-east1");
      EvInput "Which region is the GA export in (list for a list of regions)? ";
      EvInput "Please enter the GA property ID you are collecting CWV data with: " ] ∧
  filter (λ e, is_api_call e)
    (trace (main ascii_strip ascii_isdigit 3 example_args
              example_world_bad_property).2) =
    [ EvRegionsList (regions_list_project "proj") ].
Proof.
  split_and!; vm_compute; reflexivity.
Qed.

Lemma main_project_id_source_witness :
  forallb is_ascii (stdin example_world) = true ∧
  (main ascii_strip ascii_isdigit 3 example_args example_world).1 = Return tt ∧
  ∃ evs,
    trace (main ascii_strip ascii_isdigit 3 example_args example_world).2 =
      trace example_world ++
      [EvAuthDefault; EvEnviron "GOOGLE_CLOUD_PROJECT"] ++ evs ∧
    Forall (operation_of_project "proj") evs.
Proof.
  split; [reflexivity|].
  split; [vm_compute; reflexivity|].
  pose proof (main_project_id_source ascii_strip ascii_isdigit 3 example_args
                example_world example_credentials None eq_refl) as H.
  simpl in H. destruct (H "proj") as [_ Hevs]; [vm_compute; reflexivity|].
  exact Hevs.
Defined.

(** With the region on the command line, the same exit comes with no cloud
    API call before it. *)
Example main_region_given_exits_without_api_call :
  (main ascii_strip ascii_isdigit 3 example_args_region example_world_bad_answer).1 =
    Raise (SystemExit "Only GA4 properties are supported at this time.") ∧
  trace (main ascii_strip ascii_isdigit 3 example_args_region
           example_world_bad_answer).2 =
    [ EvAuthDefault; EvEnviron "GOOGLE_CLOUD_PROJECT";
      EvInput "Please enter the GA property ID you are collecting CWV data with: " ].
Proof. split; vm_compute; reflexivity. Qed.

Example ascii_strip_blanks :
  ascii_strip ("  us-central1 " +:+ newline) = "us-central1".
Proof. reflexivity. Qed.

Example ascii_isdigit_cases :
  ascii_isdigit "123" = true ∧ ascii_isdigit "" = false ∧
  ascii_isdigit "12a" = false ∧ ascii_isdigit "-12" = false.
Proof. repeat split. Qed.

(** The two bytes of a no-break space in UTF-8 are not ASCII text. *)
Example is_ascii_cases :
  is_ascii " us-central1 " = true ∧
  is_ascii (String (ascii_of_nat 194) (String (ascii_of_nat 160) "list")) = false.
Proof. split; reflexivity. Qed.

Example format_value_cases :
  format_value (Int 123) = "123" ∧ format_value (Int (-5)) = "-5" ∧
  format_value (Str "0042") = "0042".
Proof. repeat split; vm_compute; reflexivity. Qed.

Example common_location_path_example :
  common_location_path "proj" "us" = "projects/proj/locations/us".
Proof. reflexivity. Qed.

(** The literal text of the template is 4125 characters long. *)
Example materialize_query_length :
  String.length (materialize_query "proj" (Int 123)) = 4125 + 2 * (4 + 3).
Proof. vm_compute. reflexivity. Qed.

Lemma main_no_project_id_witness :
  main ascii_strip ascii_isdigit 3 example_args example_world_no_project =
  (Raise (KeyError "GOOGLE_CLOUD_PROJECT"),
   set_trace [EvAuthDefault; EvEnviron "GOOGLE_CLOUD_PROJECT"] example_world_no_project).
Proof.
  apply (main_no_project_id ascii_strip ascii_isdigit 3 example_args
           example_world_no_project
           example_credentials (Some "")); vm_compute; reflexivity.
Defined.

Lemma get_gcp_regions_failing_answer_witness :
  get_gcp_regions 1 example_credentials "proj" example_world_empty_page =
  (Raise (KeyError "items"),
   set_compute_pages [Some example_page]
     (set_trace [EvRegionsList (regions_list_project "proj")]
        example_world_empty_page)).
Proof.
  apply (get_gcp_regions_failing_answer 1 example_credentials "proj"
           example_world_empty_page (Some example_page_empty)
           [Some example_page] (KeyError "items"));
    [reflexivity | reflexivity | lia].
Defined.

Lemma delete_scheduled_query_calls_witness :
  ∃ names,
    trace (delete_scheduled_query "Update Web Vitals Summary" "proj" "us"
             example_world).2 =
      trace example_world ++
      EvListTransferConfigs (scheduled_queries_of "proj" "us") ::
      (EvDeleteTransferConfig <$> names) ∧
    length names = 2.
Proof.
  destruct (delete_scheduled_query_calls "Update Web Vitals Summary" "proj" "us"
              example_world) as (names & Htr & _ & Hlen);
    [vm_compute; reflexivity|].
  exists names. split; [exact Htr|]. rewrite Hlen. vm_compute. reflexivity.
Defined.

Lemma delete_scheduled_query_nothing_to_delete_witness :
  trace (delete_scheduled_query "No such query" "proj" "us" example_world).2 =
    trace example_world ++ [EvListTransferConfigs (scheduled_queries_of "proj" "us")] ∧
  transfer_configs (delete_scheduled_query "No such query" "proj" "us" example_world).2 =
    transfer_configs example_world.
Proof.
  destruct (delete_scheduled_query_nothing_to_delete "No such query" "proj" "us"
              example_world) as (Htr & Hst & _);
    [vm_compute; reflexivity|].
  split; [exact Htr | exact Hst].
Defined.

Lemma delete_scheduled_query_stops_at_first_failure_witness :
  (delete_scheduled_query "Update Web Vitals Summary" "proj" "us"
     example_world_failing_delete).1 = Raise GoogleAPICallError ∧
  size (transfer_configs
          (delete_scheduled_query "Update Web Vitals Summary" "proj" "us"
             example_world_failing_delete).2) = 4.
Proof.
  destruct (delete_scheduled_query_stops_at_first_failure
              "Update Web Vitals Summary" "proj" "us" example_world_failing_delete
              1 []) as (Hr & _ & Hst & _);
    [reflexivity | vm_compute; lia |].
  split; [exact Hr|]. rewrite Hst. vm_compute. reflexivity.
Defined.

Lemma delete_scheduled_query_twice_witness :
  transfer_configs
    (delete_scheduled_query "Update Web Vitals Summary" "proj" "us"
       (delete_scheduled_query "Update Web Vitals Summary" "proj" "us"
          example_world).2).2 =
  transfer_configs
    (delete_scheduled_query "Update Web Vitals Summary" "proj" "us" example_world).2.
Proof.
  apply (delete_scheduled_query_twice "Update Web Vitals Summary" "proj" "us"
           example_world).
  vm_compute. reflexivity.
Defined.

Lemma deploy_twice_replaces_witness :
  ∃ n1,
    trace (deploy_scheduled_materialize_query "proj" "us" (Str "456")
             (deploy_scheduled_materialize_query "proj" "us" (Int 123)
                example_world).2).2 =
    trace (deploy_scheduled_materialize_query "proj" "us" (Int 123) example_world).2 ++
    [ EvListTransferConfigs (scheduled_queries_of "proj" "us");
      EvDeleteTransferConfig n1;
      EvCreateTransferConfig (materialize_request "proj" "us" (Str "456")) ].
Proof.
  destruct (deploy_twice_replaces "proj" "us" (Int 123) (Str "456") example_world)
    as (n1 & n2 & _ & Htr & _); [vm_compute; reflexivity | vm_compute; reflexivity |].
  exists n1. exact Htr.
Defined.

Lemma main_with_all_options_witness :
  (main ascii_strip ascii_isdigit 0 example_args_all example_world).1 = Return tt ∧
  stdin (main ascii_strip ascii_isdigit 0 example_args_all example_world).2 =
    stdin example_world ∧
  compute_pages (main ascii_strip ascii_isdigit 0 example_args_all example_world).2 =
    compute_pages example_world.
Proof.
  destruct (main_with_all_options ascii_strip ascii_isdigit 0 example_args_all
              example_world
              example_credentials "proj" (main_project_id example_world).2
              "list" 123) as (Hr & Hin & Hpages & _);
    [vm_compute; reflexivity | reflexivity | reflexivity
    | by eexists | by eexists | by eexists | by eexists |].
  split; [|split; [exact Hin | exact Hpages]].
  rewrite Hr. vm_compute. reflexivity.
Defined.

Lemma main_interacts_before_deploying_witness :
  transfer_configs
    (main ascii_strip ascii_isdigit 3 example_args example_world_bad_property).2 =
  transfer_configs example_world_bad_property.
Proof.
  apply (proj2 (main_interacts_before_deploying ascii_strip ascii_isdigit 3
                  example_args example_world_bad_property)).
  assert (Hr : (main ascii_strip ascii_isdigit 3 example_args
                  example_world_bad_property).1 =
               Raise (SystemExit "Only GA4 properties are supported at this time."))
    by (vm_compute; reflexivity).
  rewrite Hr. simpl. intros [|]; discriminate.
Defined.

Lemma main_region_dialogue_witness :
  forallb is_ascii (stdin example_world) = true ∧
  main_region ascii_strip 3 example_credentials "proj" example_args example_world =
  (Return "us",
   set_stdin [" 123 "; "smtp.example.com"; "alerts"; "secret"; "ops@example.com"]
     (set_compute_pages []
        (set_trace
           [ EvInput "Which region should be deployed to (type list for a list)? ";
             EvRegionsList (regions_list_project "proj");
             EvPrint ("us-east1" +:+ newline +:+ "us-west1" +:+ newline +:+
                      "europe-west1" +:+ newline +:+ "us-east1");
             EvInput "Which region is the GA export in (list for a list of regions)? " ]
           example_world))).
Proof.
  split; [reflexivity|].
  rewrite (main_region_dialogue ascii_strip 3 example_credentials "proj" example_args
             example_world ["list"] " us "
             [" 123 "; "smtp.example.com"; "alerts"; "secret"; "ops@example.com"]
             [example_page] []);
    [ vm_compute; reflexivity | reflexivity | reflexivity | decide_closed
    | decide_closed | reflexivity | decide_closed | reflexivity | simpl; lia ].
Defined.

Lemma main_ends_witness :
  length (stdin example_world) + length (compute_pages example_world) < 10 ∧
  (main ascii_strip ascii_isdigit 10 example_args example_world).1 ≠ OutOfFuel.
Proof.
  assert (H : length (stdin example_world) + length (compute_pages example_world) < 10)
    by (vm_compute; lia).
  split; [exact H
         | exact (main_ends ascii_strip ascii_isdigit 10 example_args example_world H)].
Defined.
